(** * Email sender bot: a shallow embedding of [EmailSenderBot]

    The Python class [EmailSenderBot] (email_sender_bot.py) is embedded as
    Rocq functions in a small state-and-exception monad.  The state is the
    chronological history of everything the program did to the outside
    world (log records, printed lines, sleeps, SMTP sessions, files
    written); what the outside world answers (the mail server, the file
    system) is an [environment] whose answers may depend on that history. *)

From Stdlib Require Import ZArith Lia Ascii String.
From Stdlib Require Import Floats.SpecFloat.
From stdpp Require Import base option list strings gmap pretty.

Local Open Scope string_scope.
Local Open Scope list_scope.
Local Open Scope Z_scope.

(** ** Python values and exceptions *)

Module Py.

(** The values a [csv.DictReader] row holds under a column name: a string,
    or [None] (the default [restval]) when the line has fewer cells than
    the header. *)
Inductive pyval :=
| PyNone
| PyStr (s : string).

#[global] Instance pyval_eq_dec : EqDecision pyval.
Proof. solve_decision. Defined.

(** [str(v)], as an f-string or [print] shows the value. *)
Definition str (v : pyval) : string :=
  match v with
  | PyNone => "None"
  | PyStr s => s
  end.

(** A row as [csv.DictReader] yields it: the named columns, and under the
    key [None] (the default [restkey]) the cells beyond the header, when
    the line has any. *)
Record Dict := mkDict {
  columns : gmap string pyval;
  restkey : option (list string)
}.

(** [key in d] for a string key. *)
Definition contains (d : Dict) (key : string) : bool :=
  bool_decide (is_Some (columns d !! key)).

(** [d.get(key)] *)
Definition get (d : Dict) (key : string) : pyval :=
  default PyNone (columns d !! key).

(** [d.get(key, dflt)] *)
Definition get_default (d : Dict) (key : string) (dflt : pyval) : pyval :=
  default dflt (columns d !! key).

(** The exceptions of the model, all of them subclasses of [Exception]. *)
Inductive exn :=
| KeyError (key : string)
| IndexError
| ValueError
| TypeError
| OverflowError
| ZeroDivisionError
| FileNotFoundError
| PermissionError
| UnicodeDecodeError
| CsvError
| SMTPRecipientsRefused
| SMTPSenderRefused
| SMTPAuthenticationError
| SMTPConnectError
| SMTPServerDisconnected
| SMTPDataError
| TimeoutError
| OtherException (name : string).

Inductive pyresult (A : Type) :=
| Returns (a : A)
| Raises (e : exn).
Arguments Returns {A} a.
Arguments Raises {A} e.

(** [s1 in s2] for a one-character [s1]. *)
Fixpoint char_in (c : ascii) (s : string) : bool :=
  match s with
  | EmptyString => false
  | String c' s' => if Ascii.eqb c c' then true else char_in c s'
  end.

(** [range(n)] *)
Definition range (n : Z) : list Z :=
  Z.of_nat <$> seq 0 (Z.to_nat n).

(** [len(l)] *)
Definition len {A} (l : list A) : Z := Z.of_nat (length l).

End Py.
Import Py.

(** ** The outside world *)

(** A Python number: an int or a float. *)
Inductive number :=
| Int (z : Z)
| Float (f : spec_float).

(** A MIME part attached to a message: [MIMEText(body, 'plain')] or the
    [MIMEBase("application", "octet-stream")] part that [attach_file]
    builds (its payload is the content of the file, base64 in transit). *)
Inductive MimePart :=
| MIMEText (text : string) (subtype : string)
| MIMEBase (payload : string) (content_disposition : string).

(** [MIMEMultipart]: the headers in the order they were set, and the
    attached parts. *)
Record Message := mkMessage {
  headers : list (string * pyval);
  parts : list MimePart
}.

Inductive level := INFO | WARNING | ERROR.

(** One constructor per [self.logger] call of the class, carrying the
    values its f-string interpolates. *)
Inductive log_record :=
| RowMissingEmail (i : Z)
| RowInvalidEmail (i : Z) (email : pyval)
| LoadedRecipient (email : pyval)
| LoadedRecipients (count : Z) (csv_file : string)
| CsvFileNotFound (csv_file : string)
| ErrorReadingCsv (e : exn)
| AttachmentNotFound (attachment_path : string)
| Attached (filename : string)
| FailedToAttach (filepath : string) (e : exn)
| ErrorCreatingMessage (email : pyval) (e : exn)
| EmailSent (recipient_email : pyval)
| RecipientRefused (recipient_email : pyval)
| SenderRefused
| AttemptFailed (attempt_no max_retries : Z) (recipient_email : pyval)
    (wait_time : Z) (e : exn)
| FailedAfterAttempts (recipient_email : pyval) (max_retries : Z) (e : exn)
| ReportSaved (output_file : string)
| FailedToSaveReport (e : exn).

(** The fields of [self] that the methods read. *)
Record EmailSenderBot := mkBot {
  smtp_server : string;
  smtp_port : Z;
  sender_email : pyval;
  password : pyval
}.

(** What the program does to the outside world, in order. [SmtpSession] is
    one [with smtplib.SMTP(...) as server:] block (connect, [starttls],
    [login], [send_message]). *)
Inductive event :=
| Log (lvl : level) (r : log_record)
| Print (text : string)
| Sleep (secs : number)
| SmtpSession (bot : EmailSenderBot) (msg : Message)
| WriteFile (path : string) (text : string).

(** What [open(csv_file)] and the iteration over [csv.DictReader(file)]
    give: [open] raises, or the reader yields rows and then stops, at the
    end of the file or with an exception. *)
Inductive csv_source :=
| OpenRaises (e : exn)
| CsvRows (rows : list Dict) (stops_with : option exn).

(** The answers of the outside world, each a function of the history so
    far: the outcome of an SMTP session ([None]: the block completes),
    [os.path.exists], [open(path, "rb").read()], the CSV file, and
    [open(path, 'w').write(text)].  The last field is the part of
    [str.format] that the model leaves open: how a value that was found is
    rendered when the replacement field carries attribute or index
    accessors, a conversion or a format specification. *)
Record environment := mkEnv {
  smtp : list event -> EmailSenderBot -> Message -> option exn;
  path_exists : list event -> string -> bool;
  read_bytes : list event -> string -> pyresult string;
  csv_file_source : list event -> string -> csv_source;
  write_text : list event -> string -> string -> option exn;
  format_field : gmap string pyval -> pyval -> string -> option ascii ->
                 string -> pyresult string
}.

(** ** The monad of the embedding: history passing with exceptions *)

Definition IO (A : Type) : Type := list event -> pyresult A * list event.

Definition io_ret {A} (a : A) : IO A := fun h => (Returns a, h).

Definition io_bind {A B} (f : A -> IO B) (m : IO A) : IO B :=
  fun h =>
    match m h with
    | (Returns a, h') => f a h'
    | (Raises e, h') => (Raises e, h')
    end.

#[global] Instance IO_ret : MRet IO := @io_ret.
#[global] Instance IO_bind : MBind IO := @io_bind.

(** [raise e] *)
Definition raise {A} (e : exn) : IO A := fun h => (Raises e, h).

(** [try: body except Exception as e: handler(e)] *)
Definition try_except {A} (body : IO A) (handler : exn -> IO A) : IO A :=
  fun h =>
    match body h with
    | (Returns a, h') => (Returns a, h')
    | (Raises e, h') => handler e h'
    end.

Definition emit (ev : event) : IO unit := fun h => (Returns tt, h ++ [ev]).

(** Ask the outside world a question that depends on the history. *)
Definition observe {A} (q : list event -> A) : IO A :=
  fun h => (Returns (q h), h).

Definition logger (lvl : level) (r : log_record) : IO unit := emit (Log lvl r).
Definition print (text : string) : IO unit := emit (Print text).

(** [time.sleep(secs)] accepts a finite, non-negative number; it raises
    [ValueError] on a negative one or a NaN, [OverflowError] on an
    infinity.  (The upper limit of the platform on finite durations is
    left out.) *)
Definition sleepable (secs : number) : bool :=
  match secs with
  | Int z => 0 <=? z
  | Float (S754_zero _) => true
  | Float (S754_finite s _ _) => negb s
  | Float (S754_infinity _) => false
  | Float S754_nan => false
  end.

Definition time_sleep (secs : number) : IO unit :=
  if sleepable secs then emit (Sleep secs)
  else match secs with
       | Float (S754_infinity _) => raise OverflowError
       | _ => raise ValueError
       end.

(** ** [str.format] with keyword arguments

    The built-in is modelled after CPython's [MarkupIterator]: the template
    is read once from left to right, literal text is copied, and each
    replacement field is parsed and rendered when it is met, so that the
    first error met is the one raised. *)

Module Format.

Inductive state :=
| Literal
| Open
| Close
| FieldName (name : string) (in_index : bool)
| Conversion (name : string)
| AfterConversion (name : string) (conv : ascii)
| FormatSpec (name : string) (conv : option ascii) (spec : string) (count : nat).

Definition snoc (s : string) (c : ascii) : string := s +:+ String c "".

(** The part of a field name before the first ['.'] or ['[']. *)
Fixpoint first_part (name : string) : string :=
  match name with
  | EmptyString => ""
  | String c name' =>
      if Ascii.eqb c "." || Ascii.eqb c "[" then ""
      else String c (first_part name')
  end.

(** What follows [first_part]: the accessors. *)
Fixpoint accessors (name : string) : string :=
  match name with
  | EmptyString => ""
  | String c name' =>
      if Ascii.eqb c "." || Ascii.eqb c "[" then name
      else accessors name'
  end.

Definition is_digit (c : ascii) : bool :=
  let n := nat_of_ascii c in (48 <=? n)%nat && (n <=? 57)%nat.

(** [get_integer]: [None] when the text is not a decimal number,
    [Some (Raises ValueError)] when it has too many digits. *)
Fixpoint get_integer (s : string) (acc : Z) : option (pyresult Z) :=
  match s with
  | EmptyString => Some (Returns acc)
  | String c s' =>
      if is_digit c then
        if (2 ^ 63 - 1) / 10 <? acc then Some (Raises ValueError)
        else get_integer s' (acc * 10 + (Z.of_nat (nat_of_ascii c) - 48))
      else None
  end.

(** What the parser does with one character: go on in another state,
    copy a character to the output, replace the field just closed, or
    stop with [ValueError]. *)
Inductive action :=
| Continue (st : state)
| Copy (c : ascii)
| Replace (name : string) (conv : option ascii) (spec : string)
| Fail.

Definition step (st : state) (c : ascii) : action :=
  match st with
  | Literal =>
      if Ascii.eqb c "{" then Continue Open
      else if Ascii.eqb c "}" then Continue Close
      else Copy c
  | Open =>
      if Ascii.eqb c "{" then Copy "{"
      else if Ascii.eqb c "}" then Replace "" None ""
      else if Ascii.eqb c ":" then Continue (FormatSpec "" None "" 1)
      else if Ascii.eqb c "!" then Continue (Conversion "")
      else Continue (FieldName (String c "") (Ascii.eqb c "["))
  | Close =>
      if Ascii.eqb c "}" then Copy "}" else Fail
  | FieldName name true =>
      Continue (FieldName (snoc name c) (negb (Ascii.eqb c "]")))
  | FieldName name false =>
      if Ascii.eqb c "{" then Fail
      else if Ascii.eqb c "}" then Replace name None ""
      else if Ascii.eqb c ":" then Continue (FormatSpec name None "" 1)
      else if Ascii.eqb c "!" then Continue (Conversion name)
      else Continue (FieldName (snoc name c) (Ascii.eqb c "["))
  | Conversion name => Continue (AfterConversion name c)
  | AfterConversion name conv =>
      if Ascii.eqb c "}" then Replace name (Some conv) ""
      else if Ascii.eqb c ":" then Continue (FormatSpec name (Some conv) "" 1)
      else Fail
  | FormatSpec name conv spec count =>
      if Ascii.eqb c "{" then
        Continue (FormatSpec name conv (snoc spec c) (S count))
      else if Ascii.eqb c "}" then
        match count with
        | 1%nat => Replace name conv spec
        | _ => Continue (FormatSpec name conv (snoc spec c) (pred count))
        end
      else Continue (FormatSpec name conv (snoc spec c) count)
  end.

(** The state of the parser after a piece of a template, whatever its
    fields are replaced by; [None] after a [Fail]. *)
Fixpoint scan (st : state) (template : string) : option state :=
  match template with
  | EmptyString => Some st
  | String c rest =>
      match step st c with
      | Continue st' => scan st' rest
      | Copy _ | Replace _ _ _ => scan Literal rest
      | Fail => None
      end
  end.

Section Render.
Context (env : environment) (kwargs : gmap string pyval).

(** A replacement field, once parsed: find the value, then render it.
    There are no positional arguments, so an empty or numeric name finds
    nothing. *)
Definition render (name : string) (conv : option ascii) (spec : string)
  : pyresult string :=
  let first := first_part name in
  let numeric :=
    if bool_decide (first = "") then Some (Returns 0)
    else get_integer first 0 in
  match numeric with
  | Some (Raises e) => Raises e
  | Some (Returns _) => Raises IndexError
  | None =>
      match kwargs !! first with
      | None => Raises (KeyError first)
      | Some v =>
          match accessors name, conv, spec with
          | "", None, "" => Returns (str v)
          | acc, _, _ => format_field env kwargs v acc conv spec
          end
      end
  end.

Fixpoint run (st : state) (out : string) (template : string)
  : pyresult string :=
  match template with
  | EmptyString =>
      match st with
      | Literal => Returns out
      | _ => Raises ValueError
      end
  | String c rest =>
      match step st c with
      | Continue st' => run st' out rest
      | Copy c' => run Literal (snoc out c') rest
      | Replace name conv spec =>
          match render name conv spec with
          | Returns text => run Literal (out +:+ text) rest
          | Raises e => Raises e
          end
      | Fail => Raises ValueError
      end
  end.

End Render.

(** [template.format] called with the entries of [kwargs] as keyword
    arguments.  A field name is a string, so it finds the named columns
    only: the entry under the key [None], when the row has one, is passed
    along and never read. *)
Definition format (env : environment) (template : string) (kwargs : Dict)
  : pyresult string :=
  run env (columns kwargs) Literal "" template.

End Format.

(** ** [EmailSenderBot.read_recipients_from_csv] *)

Section Loader.
Context (env : environment).

(** [not v], the truth test of [if not row['email']]. *)
Definition falsy (v : pyval) : bool :=
  match v with
  | PyNone => true
  | PyStr s => bool_decide (s = "")
  end.

(** ['@' not in v] for a string [v]; on [None] Python would raise, but the
    [or] of the source never evaluates it there. *)
Definition lacks_at (v : pyval) : bool :=
  match v with
  | PyNone => true
  | PyStr s => negb (char_in "@" s)
  end.

(** The body of [for i, row in enumerate(csv_reader, 1)], over the rows the
    reader yields; [recipients] is the list built so far. *)
Fixpoint read_rows (i : Z) (rows : list Dict) (recipients : list Dict)
  : IO (list Dict) :=
  match rows with
  | [] => mret recipients
  | row :: rows' =>
      if negb (contains row "email") then
        logger WARNING (RowMissingEmail i);;
        read_rows (i + 1) rows' recipients
      else if falsy (get row "email") || lacks_at (get row "email") then
        logger WARNING (RowInvalidEmail i (get row "email"));;
        read_rows (i + 1) rows' recipients
      else
        logger INFO (LoadedRecipient (get_default row "email" (PyStr "Unknown")));;
        read_rows (i + 1) rows' (recipients ++ [row])
  end.

Definition read_recipients_from_csv (csv_file : string) : IO (list Dict) :=
  try_except
    (src ← observe (fun h => csv_file_source env h csv_file);
     match src with
     | OpenRaises e => raise e
     | CsvRows rows stops_with =>
         recipients ← read_rows 1 rows [];
         match stops_with with
         | Some e => raise e
         | None =>
             logger INFO (LoadedRecipients (len recipients) csv_file);;
             mret recipients
         end
     end)
    (fun e =>
       match e with
       | FileNotFoundError =>
           logger ERROR (CsvFileNotFound csv_file);;
           mret []
       | _ =>
           logger ERROR (ErrorReadingCsv e);;
           mret []
       end).

End Loader.

(** ** Python floats

    Binary64 numbers, with the arithmetic of the Standard Library's
    [SpecFloat]. *)

Module PyFloat.

Definition prec : Z := 53.
Definition emax : Z := 1024.

(** An integer as the operand of a correctly rounded operation: the
    mantissa is the integer itself. *)
Definition exact (z : Z) : spec_float :=
  match z with
  | Z0 => S754_zero false
  | Zpos p => S754_finite false p 0
  | Zneg p => S754_finite true p 0
  end.

(** [float(z)] for an int in the range of the floats. *)
Definition of_int (z : Z) : spec_float := binary_normalize prec emax z 0 false.

(** [a / b] on ints: the quotient rounded to the nearest float. *)
Definition truediv (a b : Z) : pyresult spec_float :=
  if b =? 0 then Raises ZeroDivisionError
  else match SFdiv prec emax (exact a) (exact b) with
       | S754_infinity _ => Raises OverflowError
       | q => Returns q
       end.

(** [x * y] on floats. *)
Definition mul (x y : spec_float) : spec_float := SFmul prec emax x y.

(** [n / d] rounded to the nearest integer, ties to even, for [0 < d]. *)
Definition div_half_even (n d : Z) : Z :=
  let q := n / d in
  match 2 * (n mod d) ?= d with
  | Lt => q
  | Eq => if Z.even q then q else q + 1
  | Gt => q + 1
  end.

(** The tenths in [m * 2 ^ e], rounded: [format] rounds the exact binary
    value, ties to even. *)
Definition tenths (m : positive) (e : Z) : Z :=
  if 0 <=? e then 10 * Z.pos m * 2 ^ e
  else div_half_even (10 * Z.pos m) (2 ^ (- e)).

Definition sign (s : bool) : string := if s then "-" else "".

(** [format(x, '.1f')]; an int is converted to a float first. *)
Definition format_1f (x : number) : string :=
  let x := match x with Int z => of_int z | Float f => f end in
  match x with
  | S754_nan => "nan"
  | S754_infinity s => sign s +:+ "inf"
  | S754_zero s => sign s +:+ "0.0"
  | S754_finite s m e =>
      let t := tenths m e in
      sign s +:+ pretty (t / 10) +:+ "." +:+ pretty (t mod 10)
  end.

End PyFloat.

(** ** Building and sending messages *)

(** [os.path.basename] on a POSIX path: what follows the last ['/']. *)
Fixpoint basename (path : string) : string :=
  match path with
  | EmptyString => ""
  | String c path' =>
      if Ascii.eqb c "/" || char_in "/" path' then basename path'
      else path
  end.

(** [MIMEMultipart()]: [MIMEBase.__init__] sets two headers. *)
Definition MIMEMultipart : Message :=
  mkMessage [("Content-Type", PyStr "multipart/mixed");
             ("MIME-Version", PyStr "1.0")] [].

(** [msg[name] = value] *)
Definition set_header (msg : Message) (name : string) (value : pyval) : Message :=
  mkMessage (headers msg ++ [(name, value)]) (parts msg).

(** [msg.attach(part)] *)
Definition attach (msg : Message) (part : MimePart) : Message :=
  mkMessage (headers msg) (parts msg ++ [part]).

(** [d[key]] *)
Definition getitem (d : Dict) (key : string) : IO pyval :=
  match columns d !! key with
  | Some v => mret v
  | None => raise (KeyError key)
  end.

(** A pure computation that may raise. *)
Definition lift {A} (r : pyresult A) : IO A := fun h => (r, h).

(** The statistics dictionary of [send_bulk_emails]. *)
Record Stats := mkStats {
  total : Z;
  success : Z;
  failed : Z;
  failed_recipients : list pyval
}.

Section Methods.
Context (env : environment) (self : EmailSenderBot).

(** [attach_file] changes [msg] in place; here it returns the message. *)
Definition attach_file (msg : Message) (filepath : string) : IO Message :=
  try_except
    (let filename := basename filepath in
     content ← (fun h => (read_bytes env h filepath, h));
     let part := MIMEBase content ("attachment; filename= " +:+ filename) in
     let msg := attach msg part in
     logger INFO (Attached filename);;
     mret msg)
    (fun e =>
       logger ERROR (FailedToAttach filepath e);;
       mret msg).

(** [for attachment_path in attachments: ...] *)
Fixpoint attach_all (msg : Message) (attachments : list string) : IO Message :=
  match attachments with
  | [] => mret msg
  | attachment_path :: attachments' =>
      found ← observe (fun h => path_exists env h attachment_path);
      msg ← (if found : bool then attach_file msg attachment_path
             else logger WARNING (AttachmentNotFound attachment_path);;
                  mret msg);
      attach_all msg attachments'
  end.

(** The statements inside the [try] of [create_email_message]. *)
Definition create_email_message_body (recipient : Dict) (subject : string)
    (body_template : string) (attachments : option (list string))
  : IO (option Message) :=
  personalized_subject ← lift (Format.format env subject recipient);
  personalized_body ← lift (Format.format env body_template recipient);
  let msg := MIMEMultipart in
  let msg := set_header msg "From" (sender_email self) in
  to ← getitem recipient "email";
  let msg := set_header msg "To" to in
  let msg := set_header msg "Subject" (PyStr personalized_subject) in
  let msg := attach msg (MIMEText personalized_body "plain") in
  msg ← match attachments with
        | Some ((_ :: _) as paths) => attach_all msg paths
        | _ => mret msg
        end;
  mret (Some msg).

Definition create_email_message (recipient : Dict) (subject : string)
    (body_template : string) (attachments : option (list string))
  : IO (option Message) :=
  try_except
    (create_email_message_body recipient subject body_template attachments)
    (fun e =>
       logger ERROR (ErrorCreatingMessage (get recipient "email") e);;
       mret None).

(** The [with smtplib.SMTP(...) as server:] block of one attempt. *)
Definition smtp_session (msg : Message) : IO unit :=
  fun h =>
    match smtp env h self msg with
    | None => (Returns tt, h ++ [SmtpSession self msg])
    | Some e => (Raises e, h ++ [SmtpSession self msg])
    end.

(** The body of [for attempt in range(max_retries)] over the attempts that
    remain; [Some b] inside stands for [return b], [None] for reaching the
    end of the body. *)
Fixpoint retry_loop (msg : Message) (recipient_email : pyval)
    (max_retries : Z) (attempts : list Z) : IO bool :=
  match attempts with
  | [] => mret false
  | attempt :: attempts' =>
      returned ← try_except
        (smtp_session msg;;
         logger INFO (EmailSent recipient_email);;
         mret (Some true))
        (fun e =>
           match e with
           | SMTPRecipientsRefused =>
               logger ERROR (RecipientRefused recipient_email);;
               mret (Some false)
           | SMTPSenderRefused =>
               logger ERROR SenderRefused;;
               mret (Some false)
           | _ =>
               (if attempt <? max_retries - 1 then
                  let wait_time := 2 ^ attempt in
                  logger WARNING (AttemptFailed (attempt + 1) max_retries
                                    recipient_email wait_time e);;
                  time_sleep (Int wait_time)
                else
                  logger ERROR (FailedAfterAttempts recipient_email
                                  max_retries e));;
               mret None
           end);
      match returned with
      | Some b => mret b
      | None => retry_loop msg recipient_email max_retries attempts'
      end
  end.

Definition send_email_with_retry (msg : Message) (recipient_email : pyval)
    (max_retries : Z) : IO bool :=
  retry_loop msg recipient_email max_retries (range max_retries).

(** [not msg]: [None] is false, and so is a message without headers
    ([Message.__len__]). *)
Definition not_msg (msg : option Message) : bool :=
  match msg with
  | None => true
  | Some m => bool_decide (headers m = [])
  end.

Definition nl : string := String (ascii_of_nat 10) "".

(** [s * n] *)
Fixpoint str_mul (s : string) (n : nat) : string :=
  match n with
  | O => ""
  | S n' => s +:+ str_mul s n'
  end.

Definition count_failure (stats : Stats) (recipient_email : pyval) : Stats :=
  mkStats (total stats) (success stats) (failed stats + 1)
          (failed_recipients stats ++ [recipient_email]).

Definition count_success (stats : Stats) : Stats :=
  mkStats (total stats) (success stats + 1) (failed stats)
          (failed_recipients stats).

(** [f"\n[{i}/{len(recipients)}] Processing: {recipient_email}"] *)
Definition processing_line (i n : Z) (recipient_email : pyval) : string :=
  nl +:+ "[" +:+ pretty i +:+ "/" +:+ pretty n +:+ "] Processing: "
  +:+ str recipient_email.

(** The body of [for i, recipient in enumerate(recipients, 1)]: one
    recipient; [n] is [len(recipients)].  The [continue] of the source is
    the branch that ends without sending or sleeping. *)
Definition bulk_body (subject body_template : string)
    (attachments : option (list string)) (delay : number) (n : Z)
    (i : Z) (recipient : Dict) (stats : Stats) : IO Stats :=
  let recipient_email := get_default recipient "email" (PyStr "Unknown") in
  print (processing_line i n recipient_email);;
  msg ← create_email_message recipient subject body_template attachments;
  match msg with
  | Some m =>
      if not_msg msg then
        mret (count_failure stats recipient_email)
      else
        sent ← send_email_with_retry m recipient_email 3;
        let stats := if sent : bool then count_success stats
                     else count_failure stats recipient_email in
        (if i <? n then time_sleep delay else mret tt);;
        mret stats
  | None =>
      mret (count_failure stats recipient_email)
  end.

Fixpoint bulk_loop (subject body_template : string)
    (attachments : option (list string)) (delay : number) (n : Z)
    (i : Z) (remaining : list Dict) (stats : Stats) : IO Stats :=
  match remaining with
  | [] => mret stats
  | recipient :: remaining' =>
      stats ← bulk_body subject body_template attachments delay n i
                recipient stats;
      bulk_loop subject body_template attachments delay n (i + 1)
        remaining' stats
  end.

Definition send_bulk_emails (recipients : list Dict) (subject : string)
    (body_template : string) (attachments : option (list string))
    (delay : number) : IO Stats :=
  let stats := mkStats (len recipients) 0 0 [] in
  print (nl +:+ str_mul "=" 50);;
  print "SENDING EMAILS";;
  print (str_mul "=" 50);;
  bulk_loop subject body_template attachments delay (len recipients) 1
    recipients stats.

(** *** [generate_report] *)

(** The value of the conditional expression
    [stats['success']/stats['total']*100 if stats['total']>0 else 0]:
    a float, or the int [0]. *)
Definition success_rate (stats : Stats) : pyresult number :=
  if 0 <? total stats then
    match PyFloat.truediv (success stats) (total stats) with
    | Returns q => Returns (Float (PyFloat.mul q (PyFloat.of_int 100)))
    | Raises e => Raises e
    end
  else Returns (Int 0).

(** [f"Success Rate: {(...):.1f}%"] *)
Definition success_rate_line (stats : Stats) : pyresult string :=
  match success_rate stats with
  | Returns rate => Returns ("Success Rate: " +:+ PyFloat.format_1f rate +:+ "%")
  | Raises e => Raises e
  end.

(** ["\n".join(report)] *)
Fixpoint join (sep : string) (lines : list string) : string :=
  match lines with
  | [] => ""
  | [line] => line
  | line :: lines' => line +:+ sep +:+ join sep lines'
  end.

(** [open(output_file, 'w', encoding='utf-8')] and [f.write(text)] *)
Definition write_file (path text : string) : IO unit :=
  fun h =>
    match write_text env h path text with
    | None => (Returns tt, h ++ [WriteFile path text])
    | Some e => (Raises e, h)
    end.

Definition generate_report (stats : Stats) (output_file : option string)
  : IO unit :=
  rate_line ← lift (success_rate_line stats);
  let report :=
    [nl +:+ str_mul "=" 50;
     "EMAIL SEND REPORT";
     str_mul "=" 50;
     "Total Recipients: " +:+ pretty (total stats);
     "Successfully Sent: " +:+ pretty (success stats);
     "Failed: " +:+ pretty (failed stats);
     rate_line] in
  let report :=
    match failed_recipients stats with
    | [] => report
    | _ :: _ =>
        (report ++ [nl +:+ "Failed Recipients:"; str_mul "-" 20])
        ++ ((fun email => "  • " +:+ str email) <$> failed_recipients stats)
    end in
  print (join nl report);;
  match output_file with
  | None | Some "" => mret tt
  | Some path =>
      try_except
        (write_file path (join nl report);;
         logger INFO (ReportSaved path))
        (fun e => logger ERROR (FailedToSaveReport e))
  end.

End Methods.

(** ** The interactive program: [authenticate], [test_connection], [main]

    The program talks to a user at a terminal.  Its world is the list of
    the lines the user will type (at the prompts of [input] and of
    [getpass.getpass]) and a history that holds, beside the events of the
    methods above, the questions asked, the connection tests and the log
    records of the authentication. *)

(** The [self.logger] calls of [authenticate] and [test_connection]. *)
Inductive auth_record :=
| Authenticated (sender_email : string)
| AuthenticationFailed
| ConnectionTestFailed (e : exn).

Inductive console_event :=
| Did (ev : event)
| Asked (prompt answer : string)
| AskedSecret (prompt answer : string)
| ConnectionTest (bot : EmailSenderBot)
| AuthLog (lvl : level) (r : auth_record).

Record console := mkConsole {
  typed : list string;
  past : list console_event
}.

(** The events of the methods in a history of the program. *)
Definition core (p : list console_event) : list event :=
  omap (λ ce, match ce with Did ev => Some ev | _ => None end) p.

(** [c.isspace()] for a character of ASCII. *)
Definition is_space (c : ascii) : bool :=
  let n := nat_of_ascii c in
  (n =? 32)%nat || ((9 <=? n)%nat && (n <=? 13)%nat)
  || ((28 <=? n)%nat && (n <=? 31)%nat).

Fixpoint lstrip (s : string) : string :=
  match s with
  | EmptyString => ""
  | String c s' => if is_space c then lstrip s' else s
  end.

Fixpoint rstrip (s : string) : string :=
  match s with
  | EmptyString => ""
  | String c s' =>
      match rstrip s' with
      | EmptyString => if is_space c then "" else String c ""
      | r => String c r
      end
  end.

(** [s.strip()] on a text of ASCII. *)
Definition ascii_strip (s : string) : string := rstrip (lstrip s).

Definition lower_char (c : ascii) : ascii :=
  let n := nat_of_ascii c in
  if (65 <=? n)%nat && (n <=? 90)%nat then ascii_of_nat (n + 32) else c.

(** [s.lower()] on a text of ASCII. *)
Fixpoint ascii_lower (s : string) : string :=
  match s with
  | EmptyString => ""
  | String c s' => String (lower_char c) (ascii_lower s')
  end.

(** The outside world of the program: the one of the methods, the outcome
    of a connection test ([None]: the server accepts the login), the
    clock, read as [datetime.now().strftime('%Y%m%d_%H%M%S')], the two
    string methods the program calls, [str.strip] and [str.lower], which
    follow the Unicode database ([ascii_strip] and [ascii_lower] are what
    they do on a text of ASCII), and the outcome of [setup_logging], which
    creates the directory [logs] and opens a log file in it ([None]: both
    are done). *)
Record desk := mkDesk {
  desk_env : environment;
  login : list console_event -> EmailSenderBot -> option exn;
  now : list console_event -> string;
  strip : string -> string;
  lower : string -> string;
  log_setup : list console_event -> option exn
}.

Definition Console (A : Type) : Type := console -> pyresult A * console.

Definition console_ret {A} (a : A) : Console A := fun c => (Returns a, c).

Definition console_bind {A B} (f : A -> Console B) (m : Console A)
  : Console B :=
  fun c =>
    match m c with
    | (Returns a, c') => f a c'
    | (Raises e, c') => (Raises e, c')
    end.

#[global] Instance Console_ret : MRet Console := @console_ret.
#[global] Instance Console_bind : MBind Console := @console_bind.

(** A method of the class run from the program: it sees the events of the
    methods so far, and what it adds goes to the history. *)
Definition run_io {A} (m : IO A) : Console A :=
  fun c =>
    let h := core (past c) in
    let '(r, h') := m h in
    (r, mkConsole (typed c) (past c ++ (Did <$> drop (length h) h'))).

Definition record (ce : console_event) : Console unit :=
  fun c => (Returns tt, mkConsole (typed c) (past c ++ [ce])).

Definition say (text : string) : Console unit := run_io (print text).

Definition EOFError : exn := OtherException "EOFError".

(** [input(prompt)]: the next line typed; [EOFError] when there is none.
    [getpass.getpass(prompt)] reads the same way, without echo. *)
Definition input (prompt : string) : Console string :=
  fun c =>
    match typed c with
    | [] => (Raises EOFError, c)
    | line :: rest =>
        (Returns line, mkConsole rest (past c ++ [Asked prompt line]))
    end.

Definition getpass (prompt : string) : Console string :=
  fun c =>
    match typed c with
    | [] => (Raises EOFError, c)
    | line :: rest =>
        (Returns line, mkConsole rest (past c ++ [AskedSecret prompt line]))
    end.

Section Program.
Context (world : desk).

(** [setup_logging]: the directory and the file it creates are not kept
    in the history; what counts is whether it raises. *)
Definition setup_logging : Console unit :=
  fun c =>
    match log_setup world (past c) with
    | None => (Returns tt, c)
    | Some e => (Raises e, c)
    end.

(** [EmailSenderBot()], with the default server and port. *)
Definition init : Console EmailSenderBot :=
  setup_logging;;
  mret (mkBot "smtp.gmail.com" 587 PyNone PyNone).

(** [test_connection] *)
Definition test_connection (self : EmailSenderBot) : Console bool :=
  fun c =>
    let c' := mkConsole (typed c) (past c ++ [ConnectionTest self]) in
    match login world (past c) self with
    | None => (Returns true, c')
    | Some e =>
        (Returns false,
         mkConsole (typed c')
           (past c' ++ [AuthLog ERROR (ConnectionTestFailed e)]))
    end.

(** [authenticate]: the result, and [self] with the two fields it sets. *)
Definition authenticate (self : EmailSenderBot)
  : Console (bool * EmailSenderBot) :=
  say (nl +:+ str_mul "=" 50);;
  say "EMAIL SENDER BOT AUTHENTICATION";;
  say (str_mul "=" 50);;
  answer ← input "Enter your email address: ";
  let sender := strip world answer in
  say (nl +:+ "For Gmail users:");;
  say "1. Enable 2-Step Verification (if not already)";;
  say "2. Generate an 'App Password' at: https://myaccount.google.com/apppasswords";;
  say ("3. Enter the 16-character app password below" +:+ nl);;
  secret ← getpass "Enter your app password: ";
  let self := mkBot (smtp_server self) (smtp_port self)
                (PyStr sender) (PyStr secret) in
  ok ← test_connection self;
  if ok : bool then
    record (AuthLog INFO (Authenticated sender));;
    say (nl +:+ "✓ Authentication successful!");;
    mret (true, self)
  else
    record (AuthLog ERROR AuthenticationFailed);;
    mret (false, self).

(** The [while True] loop that reads the body: it ends at the second of
    two empty lines in a row. *)
Fixpoint read_body (lines : list string) (p : list console_event)
    (body_lines : list string) : pyresult (list string) * console :=
  match lines with
  | [] => (Raises EOFError, mkConsole [] p)
  | line :: lines' =>
      let p' := p ++ [Asked "" line] in
      if bool_decide (line = "")
         && bool_decide (body_lines ≠ [])
         && bool_decide (last body_lines = Some "")
      then (Returns (removelast body_lines), mkConsole lines' p')
      else read_body lines' p' (body_lines ++ [line])
  end.

(** The [while add_attachments == 'y'] loop; the answer does not change
    inside it, so it ends at [done] only. *)
Fixpoint read_attachments (lines : list string) (p : list console_event)
    (attachments : list string) : pyresult (list string) * console :=
  match lines with
  | [] => (Raises EOFError, mkConsole [] p)
  | line :: lines' =>
      let p' := p ++ [Asked "Enter attachment file path (or 'done' to finish): " line] in
      let file_path := strip world line in
      if bool_decide (lower world file_path = "done") then
        (Returns attachments, mkConsole lines' p')
      else if path_exists (desk_env world) (core p') file_path then
        read_attachments lines'
          (p' ++ [Did (Print ("✓ Added: " +:+ file_path))])
          (attachments ++ [file_path])
      else
        read_attachments lines'
          (p' ++ [Did (Print ("✗ File not found: " +:+ file_path))])
          attachments
  end.

(** What [main] has gathered when it asks for the confirmation. *)
Record campaign := mkCampaign {
  campaign_bot : EmailSenderBot;
  campaign_recipients : list Dict;
  campaign_subject : string;
  campaign_body : string;
  campaign_attachments : list string
}.

(** Steps 2 to 5 of [main], and the summary of step 6; [None] when [main]
    returns before. *)
Definition main_gather (bot : EmailSenderBot) : Console (option campaign) :=
  answer ← input (nl +:+ "Enter path to recipients CSV file: ");
  let csv_file := strip world answer in
  found ← (fun c => (Returns (path_exists (desk_env world) (core (past c)) csv_file), c));
  if negb found then
    say ("✗ File not found: " +:+ csv_file);;
    mret None
  else
    recipients ← run_io (read_recipients_from_csv (desk_env world) csv_file);
    match recipients with
    | [] =>
        say "✗ No valid recipients found in CSV file.";;
        mret None
    | _ :: _ =>
        say (nl +:+ str_mul "-" 50);;
        say "EMAIL CONTENT SETUP";;
        say (str_mul "-" 50);;
        answer ← input "Enter email subject (use {name} for personalization): ";
        let subject := strip world answer in
        say (nl +:+ "Enter email body (use placeholders like {name}, {company}):");;
        say "Press Enter twice when finished:";;
        body_lines ← (fun c => read_body (typed c) (past c) []);
        let body_template := join nl body_lines in
        answer ← input (nl +:+ "Add attachments? (y/n): ");
        let add_attachments := strip world (lower world answer) in
        attachments ← (if bool_decide (add_attachments = "y")
                       then fun c => read_attachments (typed c) (past c) []
                       else mret []);
        say (nl +:+ str_mul "-" 50);;
        say "SEND CONFIRMATION";;
        say (str_mul "-" 50);;
        say ("Recipients: " +:+ pretty (len recipients));;
        say ("Subject: " +:+ subject);;
        say ("Attachments: " +:+ pretty (len attachments) +:+ " file(s)");;
        mret (Some (mkCampaign bot recipients subject body_template attachments))
    end.

(** The heading and step 1 of [main], then [main_gather]. *)
Definition main_prepare : Console (option campaign) :=
  say (nl +:+ str_mul "=" 50);;
  say "SYNTECXHUB - EMAIL SENDER BOT";;
  say "CREATE | THINK | SOLVE";;
  say (str_mul "=" 50);;
  bot ← init;
  '(ok, bot) ← authenticate bot;
  if negb ok then
    say (nl +:+ "✗ Authentication failed. Please check your credentials.");;
    mret None
  else main_gather bot.

(** [delay=2.0] *)
Definition main_delay : number := Float (PyFloat.of_int 2).

(** The confirmation of step 6, and steps 7 and 8. *)
Definition main_send (job : campaign) : Console unit :=
  answer ← input (nl +:+ "Are you ready to send? (y/n): ");
  let confirm := strip world (lower world answer) in
  if negb (bool_decide (confirm = "y")) then
    say (nl +:+ "Email sending cancelled.")
  else
    stats ← run_io (send_bulk_emails (desk_env world) (campaign_bot job)
                      (campaign_recipients job) (campaign_subject job)
                      (campaign_body job)
                      (match campaign_attachments job with
                       | [] => None
                       | _ :: _ => Some (campaign_attachments job)
                       end)
                      main_delay);
    stamp ← (fun c => (Returns (now world (past c)), c));
    let report_file := "email_report_" +:+ stamp +:+ ".txt" in
    run_io (generate_report (desk_env world) stats (Some report_file));;
    say (nl +:+ str_mul "=" 50);;
    say "PROJECT COMPLETED SUCCESSFULLY!";;
    say (str_mul "=" 50).

Definition main : Console unit :=
  job ← main_prepare;
  match job with
  | None => mret tt
  | Some job => main_send job
  end.

End Program.

(** ** Concrete inputs *)

Module Examples.

(** A world where every SMTP session succeeds, no file exists and the
    parts of [str.format] left open raise. *)
Definition quiet : environment :=
  mkEnv (fun _ _ _ => None) (fun _ _ => false) (fun _ _ => Raises FileNotFoundError)
        (fun _ _ => OpenRaises FileNotFoundError) (fun _ _ _ => None)
        (fun _ _ _ _ _ => Raises ValueError).

Definition bot : EmailSenderBot :=
  mkBot "smtp.gmail.com" 587 (PyStr "me@x.com") (PyStr "secret").

Definition row (email name : string) : Dict :=
  mkDict (<["email" := PyStr email]> (<["name" := PyStr name]> ∅)) None.

Definition alice : Dict := row "a@x.com" "A".
Definition bad : Dict := row "bad" "B".
Definition carol : Dict := row "c@x.com" "C".

(** A row of a file whose header has no [email] column. *)
Definition nameless : Dict := mkDict (<["name" := PyStr "D"]> ∅) None.

(** A row of a file with the columns [email,company]: no [name]. *)
Definition unnamed : Dict :=
  mkDict (<["email" := PyStr "u@x.com"]> (<["company" := PyStr "U"]> ∅)) None.

(** The file [recipients.csv] holding the given rows. *)
Definition with_csv (rows : list Dict) : environment :=
  mkEnv (smtp quiet) (path_exists quiet) (read_bytes quiet)
        (fun _ file => if bool_decide (file = "recipients.csv")
                       then CsvRows rows None
                       else OpenRaises FileNotFoundError)
        (write_text quiet) (format_field quiet).

(** A mail server that answers every session with the same exception. *)
Definition failing (e : exn) : environment :=
  mkEnv (fun _ _ _ => Some e) (path_exists quiet) (read_bytes quiet)
        (csv_file_source quiet) (write_text quiet) (format_field quiet).

Definition message : Message :=
  mkMessage [("Content-Type", PyStr "multipart/mixed");
             ("MIME-Version", PyStr "1.0");
             ("From", PyStr "me@x.com");
             ("To", PyStr "a@x.com");
             ("Subject", PyStr "Hi A")]
            [MIMEText "Hello A!" "plain"].

(** [delay=2.0], as [main] passes it. *)
Definition two_seconds : number := Float (PyFloat.of_int 2).

End Examples.

(** * The vocabulary of the properties *)

(** ** Rows the loader keeps *)

(** The rows the specification excludes: the [email] field is absent (the
    file has no such column, or the line has no cell for it), empty, or
    lacks ['@']. *)
Definition email_excluded (row : Dict) : Prop :=
  match columns row !! "email" with
  | None => True
  | Some PyNone => True
  | Some (PyStr s) => s = "" ∨ char_in "@" s = false
  end.

#[global] Instance email_excluded_dec row : Decision (email_excluded row).
Proof.
  unfold email_excluded.
  destruct (columns row !! "email") as [[|s]|]; apply _.
Defined.

(** ** Schedules of attempts and waits *)

(** What a run of the retry loop does to the mail server and to the clock,
    in order: the log records are left out. *)
Inductive step :=
| Attempt
| Wait (secs : number).

Definition schedule (t : list event) : list step :=
  omap (λ ev, match ev with
              | SmtpSession _ _ => Some Attempt
              | Sleep secs => Some (Wait secs)
              | _ => None
              end) t.

Definition Zsum (l : list Z) : Z := foldr Z.add 0 l.

(** The number of send attempts of a schedule. *)
Definition attempts (s : list step) : Z :=
  Zsum ((λ x, match x with Attempt => 1 | Wait _ => 0 end) <$> s).

(** The seconds of backoff of a schedule. *)
Definition waited (s : list step) : Z :=
  Zsum ((λ x, match x with Wait (Int z) => z | _ => 0 end) <$> s).

(** The schedule of the specification for [n] attempts that all fail:
    after attempt [i], a wait of [2 ^ i] seconds, except after the last. *)
Definition backoff (n : Z) : list step :=
  (range (n - 1) ≫= λ i, [Attempt; Wait (Int (2 ^ i))]) ++ [Attempt].

(** An outcome of an SMTP session that the loop retries: an exception that
    is neither of the two refusals. *)
Definition transient (outcome : option exn) : Prop :=
  match outcome with
  | Some e => e ≠ SMTPRecipientsRefused ∧ e ≠ SMTPSenderRefused
  | None => False
  end.

(** ** Placeholders *)

(** A field name without accessors, conversion or format specification,
    as in [{name}]. *)
Fixpoint plain (name : string) : bool :=
  match name with
  | EmptyString => true
  | String c name' =>
      negb (Ascii.eqb c "{" || Ascii.eqb c "}" || Ascii.eqb c ":"
            || Ascii.eqb c "!" || Ascii.eqb c "[" || Ascii.eqb c ".")
      && plain name'
  end.

(** The template has a placeholder [{name}], outside of any other field,
    for a column that the record does not have. *)
Definition missing_placeholder (template : string) (recipient : Dict) : Prop :=
  ∃ pre name post,
    template = pre +:+ "{" +:+ name +:+ "}" +:+ post
    ∧ Format.scan Format.Literal pre = Some Format.Literal
    ∧ plain name = true
    ∧ columns recipient !! name = None.

(** ** Outcomes of a batch *)

(** The address under which a recipient is reported. *)
Definition address (recipient : Dict) : pyval :=
  get_default recipient "email" (PyStr "Unknown").

(** One recipient's terminal outcome added to the statistics: [true] for
    a message sent, [false] for a failure. *)
Definition tally (stats : Stats) (outcome : Dict * bool) : Stats :=
  if outcome.2 then count_success stats
  else count_failure stats (address outcome.1).

(** The number of [true] outcomes. *)
Definition sent_count (outcomes : list bool) : Z :=
  Zsum ((λ ok : bool, if ok then 1 else 0) <$> outcomes).

(** The addresses of the recipients whose outcome is [false], in order. *)
Definition failures (outcomes : list (Dict * bool)) : list pyval :=
  omap (λ o : Dict * bool, if o.2 then None else Some (address o.1)) outcomes.


(** ** Rounding to one decimal place *)

(** A float that is a number: a zero or a finite value. *)
Definition finite (x : spec_float) : bool :=
  match x with
  | S754_zero _ | S754_finite _ _ _ => true
  | _ => false
  end.

(** [t] is the integer nearest to ten times [m * 2 ^ e], the even one of
    the two when [m * 2 ^ e] lies half way between two tenths. *)
Definition nearest_tenths (m : positive) (e : Z) (t : Z) : Prop :=
  let num := 10 * Z.pos m * 2 ^ Z.max e 0 in
  let den := 2 ^ Z.max (- e) 0 in
  2 * Z.abs (num - t * den) ≤ den
  ∧ (2 * Z.abs (num - t * den) = den → Z.even t = true).

(** [text] shows the float [x] rounded to one decimal place. *)
Definition one_decimal (x : spec_float) (text : string) : Prop :=
  match x with
  | S754_zero s => text = PyFloat.sign s +:+ "0.0"
  | S754_finite s m e =>
      ∃ t, nearest_tenths m e t
           ∧ text = PyFloat.sign s +:+ pretty (t / 10) +:+ "."
                    +:+ pretty (t mod 10)
  | S754_infinity s => text = PyFloat.sign s +:+ "inf"
  | S754_nan => text = "nan"
  end.

(** ** Further vocabulary *)

(** The outcomes of the SMTP sessions in the piece of history [t] that
    follows [h], as the outside world gave them: [None] for a session
    that completed, [Some e] for one that raised [e]. *)
Fixpoint session_outcomes (env : environment) (h t : list event)
  : list (option exn) :=
  match t with
  | [] => []
  | ev :: t' =>
      match ev with
      | SmtpSession bot msg => [smtp env h bot msg]
      | _ => []
      end ++ session_outcomes env (h ++ [ev]) t'
  end.

(** The log record the loader writes for the row numbered [i]. *)
Definition row_record (i : Z) (row : Dict) : event :=
  match columns row !! "email" with
  | None => Log WARNING (RowMissingEmail i)
  | Some v =>
      if decide (email_excluded row) then Log WARNING (RowInvalidEmail i v)
      else Log INFO (LoadedRecipient v)
  end.

(** The part that [attach_file] builds for a file. *)
Definition attachment_part (content path : string) : MimePart :=
  MIMEBase content ("attachment; filename= " +:+ basename path).

(** Literal text of a template: no brace in it. *)
Fixpoint brace_free (s : string) : bool :=
  match s with
  | EmptyString => true
  | String c s' =>
      negb (Ascii.eqb c "{" || Ascii.eqb c "}") && brace_free s'
  end.

(** The name of a column as a placeholder [{name}] can refer to it: no
    accessor, conversion or format specification, and not a number. *)
Definition column_name (name : string) : Prop :=
  plain name = true
  ∧ ∃ c name', name = String c name' ∧ Format.is_digit c = false.

(** The text written to standard output, line by line. *)
Definition printed (t : list event) : list string :=
  omap (λ ev, match ev with Print text => Some text | _ => None end) t.

(** The turn of one recipient in a batch: its line is printed, then
    nothing more is printed and at most three SMTP sessions are opened. *)
Definition turn (n i : Z) (recipient : Dict) (t : list event) : Prop :=
  ∃ rest,
    t = Print (processing_line i n (address recipient)) :: rest
    ∧ printed rest = []
    ∧ attempts (schedule rest) ≤ 3.

(** A piece of history made of log records only. *)
Definition only_logs (t : list event) : Prop :=
  Forall (λ ev, match ev with Log _ _ => True | _ => False end) t.

(** Both templates format for the recipient, and it has an [email]. *)
Definition renders (env : environment) (subject body_template : string)
    (recipient : Dict) : Prop :=
  (∃ ps, Format.format env subject recipient = Returns ps)
  ∧ (∃ pb, Format.format env body_template recipient = Returns pb)
  ∧ is_Some (columns recipient !! "email").

(** [n] deliveries at the first attempt, with a pause between two of
    them. *)
Definition deliveries (delay : number) (n : nat) : list step :=
  match n with
  | O => []
  | S k => (replicate k () ≫= λ _, [Attempt; Wait delay]) ++ [Attempt]
  end.

(** [clean b lines]: [lines] has no two empty lines in a row and does not
    end with an empty line; [b] tells whether an empty line comes just
    before [lines]. *)
Fixpoint clean (blank_before : bool) (lines : list string) : bool :=
  match lines with
  | [] => negb blank_before
  | line :: lines' =>
      if bool_decide (line = "") then negb blank_before && clean true lines'
      else clean false lines'
  end.

(** What the attachment loop of [main] asks and prints for one path
    entered, on a file system that does not change. *)
Definition attachment_dialogue (world : desk) (entry : string)
  : list console_event :=
  let file_path := strip world entry in
  [Asked "Enter attachment file path (or 'done' to finish): " entry;
   Did (Print ((if path_exists (desk_env world) [] file_path
                then "✓ Added: " else "✗ File not found: ") +:+ file_path))].

(** An event that is no SMTP session. *)
Definition no_session (ce : console_event) : Prop :=
  match ce with Did (SmtpSession _ _) => False | _ => True end.

#[global] Instance no_session_dec ce : Decision (no_session ce).
Proof.
  destruct ce as [[]| | | |]; cbn; apply _.
Defined.

(** [m] only adds to the history, and what it adds satisfies [P]. *)
Definition grows {A} (P : console_event → Prop) (m : Console A) : Prop :=
  ∀ c r c', m c = (r, c') → ∃ t, past c' = past c ++ t ∧ Forall P t.

Module MoreExamples.

(** A file whose reader raises after two rows. *)
Definition broken_csv : environment :=
  mkEnv (smtp Examples.quiet) (path_exists Examples.quiet)
        (read_bytes Examples.quiet)
        (λ _ _, CsvRows [Examples.alice; Examples.carol] (Some UnicodeDecodeError))
        (write_text Examples.quiet) (format_field Examples.quiet).

(** A file system with the one file [/tmp/offer.pdf]. *)
Definition one_file : environment :=
  mkEnv (smtp Examples.quiet)
        (λ _ path, bool_decide (path = "/tmp/offer.pdf"))
        (λ _ path, if bool_decide (path = "/tmp/offer.pdf")
                   then Returns "%PDF" else Raises FileNotFoundError)
        (csv_file_source Examples.quiet) (write_text Examples.quiet)
        (format_field Examples.quiet).

(** A line of a file with the columns [email,name] that has one cell. *)
Definition short_line : Dict :=
  mkDict (<["email" := PyStr "s@x.com"]> (<["name" := PyNone]> ∅)) None.


(** A desk where the login is accepted, the file [recipients.csv] holds
    the given rows and exists, and no other file does. *)
Definition office (rows : list Dict) : desk :=
  mkDesk (mkEnv (smtp Examples.quiet)
                (λ _ path, bool_decide (path = "recipients.csv"))
                (read_bytes Examples.quiet)
                (csv_file_source (Examples.with_csv rows))
                (write_text Examples.quiet) (format_field Examples.quiet))
         (λ _ _, None) (λ _, "20240101_120000") ascii_strip ascii_lower
         (λ _, None).

(** A desk where the mail server refuses every login. *)
Definition locked : desk :=
  mkDesk Examples.quiet (λ _ _, Some SMTPAuthenticationError)
         (λ _, "20240101_120000") ascii_strip ascii_lower
         (λ _, None).

(** What a user types to send [Hi {name}] with a body of one line. *)
Definition session (confirm : string) : list string :=
  ["  me@x.com "; "secret"; "recipients.csv"; "Hi {name}";
   "Hello {name}!"; ""; ""; "n"; confirm].

End MoreExamples.

(** * Properties *)

(** Running a computation of the monad: the operations are unfolded so
    that what remains is the next call applied to the history. *)
Ltac io_run :=
  unfold mbind, mret, IO_bind, IO_ret, io_bind, io_ret, try_except,
    logger, print, emit, raise, lift, observe; cbv beta.

(** ** The recipient loader *)

Lemma read_rows_filter rows : ∀ i recipients h,
  ∃ h', read_rows i rows recipients h
        = (Returns (recipients ++ filter (λ row, ¬ email_excluded row) rows), h').
Proof.
  induction rows as [|row rows IH]; intros i recipients h.
  { exists h. cbn. by rewrite app_nil_r. }
  cbn [read_rows]. unfold contains, get, get_default, falsy, lacks_at.
  rewrite filter_cons.
  assert (Hex : email_excluded row
                ↔ match columns row !! "email" with
                  | Some (PyStr s) => s = "" ∨ char_in "@" s = false
                  | _ => True
                  end) by (unfold email_excluded; by repeat case_match).
  destruct (columns row !! "email") as [[|s]|] eqn:Hemail; cbn.
  - rewrite decide_False by tauto. io_run. apply IH.
  - destruct (bool_decide (s = "")) eqn:Hs; cbn.
    + apply bool_decide_eq_true_1 in Hs.
      rewrite decide_False by tauto. io_run. apply IH.
    + apply bool_decide_eq_false_1 in Hs.
      destruct (char_in "@" s) eqn:Hat; cbn.
      * rewrite decide_True by (rewrite Hex; intros [?|?]; congruence).
        io_run. edestruct (IH (i + 1) (recipients ++ [row])) as [h' Hh'].
        exists h'. rewrite Hh'. by rewrite <- app_assoc.
      * rewrite decide_False by tauto. io_run. apply IH.
  - rewrite decide_False by tauto. io_run. apply IH.
Qed.

(** C5. When the file opens and is read to its end, the loader returns the
    rows of the file, in their order and as they are, without those whose
    [email] field is absent, empty or lacks ['@']: a row is neither
    changed nor merged with an equal one. *)
Theorem loader_keeps_valid_rows env csv_file rows h :
  csv_file_source env h csv_file = CsvRows rows None →
  ∃ h', read_recipients_from_csv env csv_file h
        = (Returns (filter (λ row, ¬ email_excluded row) rows), h').
Proof.
  intros Hsrc. unfold read_recipients_from_csv. io_run. rewrite Hsrc.
  destruct (read_rows_filter rows 1 [] h) as [h' Hh'].
  rewrite Hh'. cbn. eauto.
Qed.

Lemma loader_keeps_valid_rows_witness :
  ∃ h', read_recipients_from_csv
          (Examples.with_csv [Examples.alice; Examples.bad; Examples.carol;
                              Examples.nameless; Examples.alice])
          "recipients.csv" []
        = (Returns [Examples.alice; Examples.carol; Examples.alice], h').
Proof.
  apply (loader_keeps_valid_rows
           (Examples.with_csv [Examples.alice; Examples.bad; Examples.carol;
                               Examples.nameless; Examples.alice])
           "recipients.csv"
           [Examples.alice; Examples.bad; Examples.carol;
            Examples.nameless; Examples.alice] []).
  reflexivity.
Defined.

(** C7. When [open] raises, the loader logs one error and returns the
    empty list: the record says that the file was not found when the
    exception is [FileNotFoundError], and carries the exception
    otherwise. *)
Theorem loader_source_not_found env csv_file e h :
  csv_file_source env h csv_file = OpenRaises e →
  read_recipients_from_csv env csv_file h
  = (Returns [],
     h ++ [Log ERROR (match e with
                      | FileNotFoundError => CsvFileNotFound csv_file
                      | _ => ErrorReadingCsv e
                      end)]).
Proof.
  intros Hsrc. unfold read_recipients_from_csv. io_run. rewrite Hsrc.
  by destruct e.
Qed.

Lemma loader_source_not_found_witness :
  read_recipients_from_csv Examples.quiet "missing.csv" []
  = (Returns [], [Log ERROR (CsvFileNotFound "missing.csv")]).
Proof.
  apply (loader_source_not_found Examples.quiet "missing.csv" FileNotFoundError []).
  reflexivity.
Defined.

(** ** The retry loop *)

Lemma schedule_app t1 t2 : schedule (t1 ++ t2) = schedule t1 ++ schedule t2.
Proof. unfold schedule. apply omap_app. Qed.

Lemma Zsum_app l1 l2 : Zsum (l1 ++ l2) = Zsum l1 + Zsum l2.
Proof.
  unfold Zsum. induction l1 as [|x l1 IH]; cbn; [done | rewrite IH; lia].
Qed.

Lemma range_succ n : 0 ≤ n → range (n + 1) = range n ++ [n].
Proof.
  intros Hn. unfold range.
  replace (Z.to_nat (n + 1)) with (S (Z.to_nat n)) by lia.
  rewrite seq_S, fmap_app. cbn. do 3 f_equal. lia.
Qed.

Lemma range_pos n : 1 ≤ n → range n = 0 :: (Z.of_nat <$> seq 1 (Z.to_nat (n - 1))).
Proof.
  intros Hn. unfold range.
  replace (Z.to_nat n) with (S (Z.to_nat (n - 1))) by lia. done.
Qed.

Lemma attempts_bind (l : list Z) :
  attempts (l ≫= λ i, [Attempt; Wait (Int (2 ^ i))]) = len l.
Proof.
  unfold attempts, len, Zsum.
  induction l as [|i l IH]; [done|]. cbn in *. rewrite IH. lia.
Qed.

Lemma waited_bind (l : list Z) :
  waited (l ≫= λ i, [Attempt; Wait (Int (2 ^ i))]) = Zsum ((λ i, 2 ^ i) <$> l).
Proof.
  unfold waited, Zsum.
  induction l as [|i l IH]; [done|]. cbn in *. by rewrite IH.
Qed.

Lemma attempts_app s1 s2 : attempts (s1 ++ s2) = attempts s1 + attempts s2.
Proof. unfold attempts. by rewrite fmap_app, Zsum_app. Qed.

Lemma waited_app s1 s2 : waited (s1 ++ s2) = waited s1 + waited s2.
Proof. unfold waited. by rewrite fmap_app, Zsum_app. Qed.

Lemma attempts_backoff n : 1 ≤ n → attempts (backoff n) = n.
Proof.
  intros Hn. unfold backoff. rewrite attempts_app, attempts_bind.
  unfold range, len. rewrite length_fmap, length_seq.
  change (attempts [Attempt]) with 1. lia.
Qed.

Lemma waited_backoff n :
  waited (backoff n) = Zsum ((λ i, 2 ^ i) <$> range (n - 1)).
Proof.
  unfold backoff. rewrite waited_app, waited_bind.
  change (waited [Attempt]) with 0. lia.
Qed.

Section Retry.
Context (env : environment) (self : EmailSenderBot).
Context (msg : Message) (recipient_email : pyval) (max_retries : Z).

(** One turn of the loop. *)
Lemma retry_loop_step attempt attempts' h :
  retry_loop env self msg recipient_email max_retries (attempt :: attempts') h
  = match smtp env h self msg with
    | None =>
        (Returns true,
         h ++ [SmtpSession self msg; Log INFO (EmailSent recipient_email)])
    | Some SMTPRecipientsRefused =>
        (Returns false,
         h ++ [SmtpSession self msg; Log ERROR (RecipientRefused recipient_email)])
    | Some SMTPSenderRefused =>
        (Returns false, h ++ [SmtpSession self msg; Log ERROR SenderRefused])
    | Some e =>
        retry_loop env self msg recipient_email max_retries attempts'
          (h ++ SmtpSession self msg
                :: (if attempt <? max_retries - 1 then
                      [Log WARNING (AttemptFailed (attempt + 1) max_retries
                                      recipient_email (2 ^ attempt) e);
                       Sleep (Int (2 ^ attempt))]
                    else
                      [Log ERROR (FailedAfterAttempts recipient_email
                                    max_retries e)]))
    end.
Proof.
  cbn [retry_loop]. io_run. unfold smtp_session, time_sleep.
  assert (Hsleep : sleepable (Int (2 ^ attempt)) = true).
  { cbn. apply Z.leb_le. destruct (Z.le_gt_cases 0 attempt).
    - apply Z.pow_nonneg. lia.
    - rewrite Z.pow_neg_r; lia. }
  rewrite Hsleep. io_run.
  destruct (smtp env h self msg) as [e|]; [|by rewrite <- app_assoc].
  destruct e; destruct (attempt <? max_retries - 1);
    by rewrite <- ?app_assoc.
Qed.

(** The loop over the attempts [k, k + 1, ..., max_retries - 1] when every
    one of them fails with an exception of the general handler. *)
Lemma retry_loop_transient :
  (∀ h, transient (smtp env h self msg)) →
  ∀ m k h,
    Z.of_nat (k + S m) = max_retries →
    ∃ t, retry_loop env self msg recipient_email max_retries
           (Z.of_nat <$> seq k (S m)) h = (Returns false, h ++ t)
         ∧ schedule t
           = ((Z.of_nat <$> seq k m) ≫= λ i, [Attempt; Wait (Int (2 ^ i))])
             ++ [Attempt].
Proof.
  intros Htransient. induction m as [|m IH]; intros k h Hmax.
  - change (Z.of_nat <$> seq k 1) with [Z.of_nat k].
    rewrite retry_loop_step.
    specialize (Htransient h). destruct (smtp env h self msg) as [e|]; [|done].
    destruct Htransient as [Hr Hs].
    replace (Z.of_nat k <? max_retries - 1) with false
      by (symmetry; apply Z.ltb_ge; lia).
    destruct e; try done; (eexists; split; [reflexivity | done]).
  - change (Z.of_nat <$> seq k (S (S m)))
      with (Z.of_nat k :: (Z.of_nat <$> seq (S k) (S m))).
    rewrite retry_loop_step.
    pose proof (Htransient h) as Hnow.
    destruct (smtp env h self msg) as [e|]; [|done].
    destruct Hnow as [Hr Hs].
    replace (Z.of_nat k <? max_retries - 1) with true
      by (symmetry; apply Z.ltb_lt; lia).
    destruct e; try done;
      (edestruct (IH (S k)) as (t & Ht & Hsched); [lia|];
       rewrite Ht; eexists; split; [by rewrite <- app_assoc|];
       by rewrite schedule_app, Hsched).
Qed.

End Retry.

(** C2. With [max_retries] at least 1 and a mail server that answers every
    session with an exception other than the two refusals, the retry
    operation returns [False] after exactly [max_retries] sessions; it
    sleeps [2 ^ attempt] seconds after each attempt but the last, so for
    the sum of [2 ^ i] over [i] from 0 to [max_retries - 2] in all. *)
Theorem retry_exhausts_attempts env self msg recipient_email max_retries h :
  1 ≤ max_retries →
  (∀ h', transient (smtp env h' self msg)) →
  ∃ t, send_email_with_retry env self msg recipient_email max_retries h
       = (Returns false, h ++ t)
       ∧ schedule t = backoff max_retries
       ∧ attempts (schedule t) = max_retries
       ∧ waited (schedule t) = Zsum ((λ i, 2 ^ i) <$> range (max_retries - 1)).
Proof.
  intros Hmax Htransient. unfold send_email_with_retry.
  destruct (retry_loop_transient env self msg recipient_email max_retries
              Htransient (Z.to_nat (max_retries - 1)) 0%nat h)
    as (t & Ht & Hsched); [lia|].
  exists t. unfold range.
  replace (Z.to_nat max_retries) with (S (Z.to_nat (max_retries - 1))) by lia.
  split; [exact Ht|].
  assert (Hb : schedule t = backoff max_retries) by exact Hsched.
  rewrite Hb. split; [done|]. split.
  - by apply attempts_backoff.
  - apply waited_backoff.
Qed.

Lemma retry_exhausts_attempts_witness :
  ∃ t, send_email_with_retry (Examples.failing TimeoutError) Examples.bot
         Examples.message (PyStr "a@x.com") 3 []
       = (Returns false, [] ++ t)
       ∧ schedule t = [Attempt; Wait (Int 1); Attempt; Wait (Int 2); Attempt]
       ∧ attempts (schedule t) = 3
       ∧ waited (schedule t) = 3.
Proof.
  apply (retry_exhausts_attempts (Examples.failing TimeoutError) Examples.bot
           Examples.message (PyStr "a@x.com") 3 []).
  - lia.
  - intros h'. cbn. done.
Defined.

(** X19. When the first session ends with [SMTPRecipientsRefused] or
    [SMTPSenderRefused], the retry operation returns [False] at once: the
    history gains that one session and one error record, and no sleep. *)
Theorem retry_stops_on_refusal env self msg recipient_email max_retries h e :
  1 ≤ max_retries →
  smtp env h self msg = Some e →
  e = SMTPRecipientsRefused ∨ e = SMTPSenderRefused →
  send_email_with_retry env self msg recipient_email max_retries h
  = (Returns false,
     h ++ [SmtpSession self msg;
           Log ERROR (match e with
                      | SMTPRecipientsRefused => RecipientRefused recipient_email
                      | _ => SenderRefused
                      end)]).
Proof.
  intros Hmax Hsmtp He. unfold send_email_with_retry.
  rewrite range_pos by done. rewrite retry_loop_step, Hsmtp.
  by destruct He as [-> | ->].
Qed.

Lemma retry_stops_on_refusal_witness :
  send_email_with_retry (Examples.failing SMTPRecipientsRefused) Examples.bot
    Examples.message (PyStr "a@x.com") 3 []
  = (Returns false,
     [SmtpSession Examples.bot Examples.message;
      Log ERROR (RecipientRefused (PyStr "a@x.com"))]).
Proof.
  apply (retry_stops_on_refusal (Examples.failing SMTPRecipientsRefused)
           Examples.bot Examples.message (PyStr "a@x.com") 3 []
           SMTPRecipientsRefused).
  - lia.
  - reflexivity.
  - by left.
Defined.

(** C3. A refused authentication is not among the failures that end the
    loop.  [server.login] raises [SMTPAuthenticationError], which is
    neither of the two classes with a handler of their own (the one for
    [SMTPSenderRefused] logs [Sender refused. Check authentication.]); it
    reaches the general handler and is retried.  With a mail server that
    refuses the login at every session and [max_retries] at least 2, the
    retry operation opens [max_retries] sessions and sleeps between them,
    where the claim has one attempt and no wait. *)
Theorem retry_repeats_authentication_refusal env self msg recipient_email
    max_retries h :
  2 ≤ max_retries →
  (∀ h', smtp env h' self msg = Some SMTPAuthenticationError) →
  ∃ t, send_email_with_retry env self msg recipient_email max_retries h
       = (Returns false, h ++ t)
       ∧ schedule t = backoff max_retries
       ∧ attempts (schedule t) = max_retries
       ∧ waited (schedule t) = Zsum ((λ i, 2 ^ i) <$> range (max_retries - 1)).
Proof.
  intros Hmax Hlogin. unfold send_email_with_retry.
  assert (Htransient : ∀ h', transient (smtp env h' self msg))
    by (intros h'; by rewrite Hlogin).
  destruct (retry_loop_transient env self msg recipient_email max_retries
              Htransient (Z.to_nat (max_retries - 1)) 0%nat h)
    as (t & Ht & Hsched); [lia|].
  exists t. unfold range.
  replace (Z.to_nat max_retries) with (S (Z.to_nat (max_retries - 1))) by lia.
  split; [exact Ht|].
  assert (Hb : schedule t = backoff max_retries) by exact Hsched.
  rewrite Hb. split; [done|]. split.
  - apply attempts_backoff. lia.
  - apply waited_backoff.
Qed.

Lemma retry_repeats_authentication_refusal_witness :
  ∃ t, send_email_with_retry (Examples.failing SMTPAuthenticationError)
         Examples.bot Examples.message (PyStr "a@x.com") 3 []
       = (Returns false, [] ++ t)
       ∧ schedule t = [Attempt; Wait (Int 1); Attempt; Wait (Int 2); Attempt]
       ∧ attempts (schedule t) = 3
       ∧ waited (schedule t) = 3.
Proof.
  apply (retry_repeats_authentication_refusal
           (Examples.failing SMTPAuthenticationError) Examples.bot
           Examples.message (PyStr "a@x.com") 3 []).
  - lia.
  - reflexivity.
Defined.

(** C9. With [max_retries = 0] the loop body never runs: no session, no
    sleep, no log record, and the result is [False]. *)
Theorem retry_zero_attempts env self msg recipient_email h :
  send_email_with_retry env self msg recipient_email 0 h = (Returns false, h).
Proof. reflexivity. Qed.

(** ** Rendering a message *)

Lemma append_cons c (s1 s2 : string) : String c s1 +:+ s2 = String c (s1 +:+ s2).
Proof. reflexivity. Qed.

Lemma append_nil_r (s : string) : s +:+ "" = s.
Proof. induction s as [|c s IH]; [done|]. by rewrite append_cons, IH. Qed.

Lemma append_assoc (s1 s2 s3 : string) : (s1 +:+ s2) +:+ s3 = s1 +:+ s2 +:+ s3.
Proof. induction s1 as [|c s1 IH]; [done|]. by rewrite !append_cons, IH. Qed.

Section FormatFacts.
Context (env : environment) (kwargs : gmap string pyval).
Import Format.

Lemma first_part_plain name : plain name = true → first_part name = name.
Proof.
  induction name as [|c name IH]; [done|]. cbn.
  intros [Hc Hname]%andb_true_iff.
  apply negb_true_iff in Hc. repeat (apply orb_false_iff in Hc as [Hc ?]).
  replace (Ascii.eqb c "." || Ascii.eqb c "[") with false
    by (symmetry; apply orb_false_iff; done).
  by rewrite IH.
Qed.

Lemma render_missing name conv spec :
  plain name = true → kwargs !! name = None →
  ∃ e, render env kwargs name conv spec = Raises e.
Proof.
  intros Hplain Hnone. unfold render. rewrite first_part_plain by done.
  destruct (if bool_decide (name = "") then _ else _) as [[z|e]|]; eauto.
  rewrite Hnone. eauto.
Qed.

Lemma run_field_name name : ∀ acc out post,
  plain name = true →
  run env kwargs (FieldName acc false) out (name +:+ "}" +:+ post)
  = match render env kwargs (acc +:+ name) None "" with
    | Returns text => run env kwargs Literal (out +:+ text) post
    | Raises e => Raises e
    end.
Proof.
  induction name as [|c name IH]; intros acc out post Hplain.
  - change ("" +:+ "}" +:+ post) with (String "}" post).
    cbn. by rewrite append_nil_r.
  - cbn in Hplain. apply andb_true_iff in Hplain as [Hc Hname].
    apply negb_true_iff in Hc. repeat (apply orb_false_iff in Hc as [Hc ?]).
    rewrite append_cons. cbn [run step]. rewrite Hc.
    repeat match goal with H : Ascii.eqb c _ = false |- _ => rewrite H; clear H end.
    rewrite IH by done. unfold snoc. by rewrite append_assoc.
Qed.

Lemma run_missing name out post :
  plain name = true → kwargs !! name = None →
  ∃ e, run env kwargs Literal out ("{" +:+ name +:+ "}" +:+ post) = Raises e.
Proof.
  intros Hplain Hnone. destruct name as [|c name].
  - change ("{" +:+ "" +:+ "}" +:+ post) with (String "{" (String "}" post)).
    cbn. eauto.
  - pose proof Hplain as Hc. cbn in Hc. apply andb_true_iff in Hc as [Hc Hname].
    apply negb_true_iff in Hc. repeat (apply orb_false_iff in Hc as [Hc ?]).
    change ("{" +:+ String c name +:+ "}" +:+ post)
      with (String "{" (String c (name +:+ "}" +:+ post))).
    change (run env kwargs Literal out (String "{" ?rest))
      with (run env kwargs Open out rest).
    cbn [run]. unfold step. rewrite Hc.
    repeat match goal with H : Ascii.eqb c _ = false |- _ => rewrite H; clear H end.
    rewrite run_field_name by done. rewrite append_cons.
    change ("" +:+ name) with name.
    destruct (render_missing (String c name) None "" Hplain Hnone) as [e He].
    rewrite He. eauto.
Qed.

Lemma run_scan pre rest : ∀ st out st',
  scan st pre = Some st' →
  (∃ e, run env kwargs st out (pre +:+ rest) = Raises e)
  ∨ ∃ out', run env kwargs st out (pre +:+ rest) = run env kwargs st' out' rest.
Proof.
  induction pre as [|c pre IH]; intros st out st' Hscan.
  - cbn in Hscan. injection Hscan as <-. right. by exists out.
  - rewrite append_cons. cbn [run scan] in *. destruct (step st c) as [st1|c'|name conv spec|].
    + by apply IH.
    + by apply IH.
    + destruct (render env kwargs name conv spec) as [text|e]; [|eauto].
      by apply IH.
    + done.
Qed.

End FormatFacts.

(** A row with cells beyond the header: the entry under the key [None] is
    passed to [format] with the columns and no field name finds it, not
    even [None], which is looked up as the string. *)
Example format_row_with_extra_cells :
  let row := mkDict (<["name" := PyStr "A"]> ∅) (Some ["x"]) in
  Format.format Examples.quiet "Hi {name}" row = Returns "Hi A"
  ∧ Format.format Examples.quiet "Hi {None}" row = Raises (KeyError "None").
Proof. split; reflexivity. Qed.

(** A template with a placeholder for a column that is missing does not
    format. *)
Lemma format_missing_placeholder env template recipient :
  missing_placeholder template recipient →
  ∃ e, Format.format env template recipient = Raises e.
Proof.
  intros (pre & name & post & -> & Hscan & Hplain & Hnone).
  unfold Format.format.
  destruct (run_scan env (columns recipient) pre ("{" +:+ name +:+ "}" +:+ post)
              Format.Literal "" Format.Literal Hscan) as [?|[out' Hrun]]; [done|].
  rewrite Hrun. by apply run_missing.
Qed.

Section Create.
Context (env : environment) (self : EmailSenderBot).

Lemma attach_file_run msg filepath h :
  ∃ msg' t, attach_file env msg filepath h = (Returns msg', h ++ t)
            ∧ schedule t = [] ∧ headers msg' = headers msg.
Proof.
  unfold attach_file. io_run.
  destruct (read_bytes env h filepath) as [content|e];
    eexists _, [_]; done.
Qed.

Lemma attach_all_run paths : ∀ msg h,
  ∃ msg' t, attach_all env msg paths h = (Returns msg', h ++ t)
            ∧ schedule t = [] ∧ headers msg' = headers msg.
Proof.
  induction paths as [|path paths IH]; intros msg h.
  - exists msg, []. cbn. by rewrite app_nil_r.
  - cbn [attach_all]. io_run. destruct (path_exists env h path).
    + destruct (attach_file_run msg path h) as (msg1 & t1 & -> & Ht1 & Hh1).
      destruct (IH msg1 (h ++ t1)) as (msg2 & t2 & -> & Ht2 & Hh2).
      exists msg2, (t1 ++ t2). rewrite app_assoc, schedule_app, Ht1, Ht2.
      split; [done|]. split; [done | congruence].
    + destruct (IH msg (h ++ [Log WARNING (AttachmentNotFound path)]))
        as (msg2 & t2 & -> & Ht2 & Hh2).
      exists msg2, (Log WARNING (AttachmentNotFound path) :: t2).
      rewrite <- app_assoc. done.
Qed.

(** The statements inside the [try] either build a message, which has
    headers, or raise; they leave the mail server and the clock alone. *)
Lemma create_email_message_body_run recipient subject body_template attachments h :
  ∃ t,
    schedule t = []
    ∧ ((∃ m, create_email_message_body env self recipient subject
               body_template attachments h = (Returns (Some m), h ++ t)
             ∧ headers m ≠ [])
       ∨ (∃ e, create_email_message_body env self recipient subject
                 body_template attachments h = (Raises e, h ++ t))).
Proof.
  unfold create_email_message_body, getitem. io_run.
  destruct (Format.format env subject recipient) as [ps|e];
    [|exists []; rewrite app_nil_r; eauto].
  destruct (Format.format env body_template recipient) as [pb|e];
    [|exists []; rewrite app_nil_r; eauto].
  destruct (columns recipient !! "email") as [to|];
    [|exists []; rewrite app_nil_r; eauto].
  io_run. destruct attachments as [[|path paths]|].
  - exists []. rewrite app_nil_r. split; [done|]. left. eexists. done.
  - match goal with |- context [attach_all env ?m ?l h] =>
      destruct (attach_all_run l m h) as (msg' & t & -> & Ht & Hh) end.
    exists t. split; [done|]. left. exists msg'. split; [done|].
    rewrite Hh. done.
  - exists []. rewrite app_nil_r. split; [done|]. left. eexists. done.
Qed.

(** [create_email_message] returns: a message with headers, or [None]
    exactly when the statements inside its [try] raised. *)
Lemma create_email_message_run recipient subject body_template attachments h :
  ∃ result t,
    create_email_message env self recipient subject body_template attachments h
    = (Returns result, h ++ t)
    ∧ schedule t = []
    ∧ not_msg result = bool_decide (result = None)
    ∧ (result = None
       ↔ ∃ e h', create_email_message_body env self recipient subject
                   body_template attachments h = (Raises e, h')).
Proof.
  unfold create_email_message. io_run.
  destruct (create_email_message_body_run recipient subject body_template
              attachments h) as (t & Ht & [(m & -> & Hm) | (e & ->)]).
  - exists (Some m), t. repeat split; try done.
    + cbn. by rewrite bool_decide_eq_false_2.
    + by intros (? & ? & ?).
  - exists None, (t ++ [Log ERROR (ErrorCreatingMessage (get recipient "email") e)]).
    rewrite app_assoc, schedule_app, Ht. repeat split; eauto.
Qed.

End Create.

(** C10. [create_email_message] never raises: it returns a message or
    [None], and [None] exactly when a statement inside its [try] raised;
    so it does when a template has a placeholder for a column that the
    record lacks, and when the record has no [email] key. *)
Theorem create_email_message_never_raises env self recipient subject
    body_template attachments h :
  ∃ result h',
    create_email_message env self recipient subject body_template attachments h
    = (Returns result, h')
    ∧ (result = None
       ↔ ∃ e h'', create_email_message_body env self recipient subject
                    body_template attachments h = (Raises e, h''))
    ∧ (missing_placeholder subject recipient
       ∨ missing_placeholder body_template recipient → result = None)
    ∧ (columns recipient !! "email" = None → result = None).
Proof.
  destruct (create_email_message_run env self recipient subject body_template
              attachments h) as (result & t & Hrun & _ & _ & Hnone).
  exists result, (h ++ t). split; [done|]. split; [done|].
  split; intros H; apply Hnone;
    unfold create_email_message_body, getitem; io_run.
  - destruct H as [H|H]; apply (format_missing_placeholder env) in H as [e He].
    + rewrite He. eauto.
    + destruct (Format.format env subject recipient); [|eauto].
      rewrite He. eauto.
  - destruct (Format.format env subject recipient); [|eauto].
    destruct (Format.format env body_template recipient); [|eauto].
    rewrite H. eauto.
Qed.

Lemma create_email_message_never_raises_witness :
  ∃ h h',
    create_email_message Examples.quiet Examples.bot Examples.unnamed
      "Hi {name}" "Hello!" None [] = (Returns None, h)
    ∧ create_email_message Examples.quiet Examples.bot Examples.nameless
        "Hi {name}" "Hello {name}!" None [] = (Returns None, h').
Proof.
  destruct (create_email_message_never_raises Examples.quiet Examples.bot
              Examples.unnamed "Hi {name}" "Hello!" None [])
    as (r & h & Hrun & _ & Hmissing & _).
  destruct (create_email_message_never_raises Examples.quiet Examples.bot
              Examples.nameless "Hi {name}" "Hello {name}!" None [])
    as (r' & h' & Hrun' & _ & _ & Hemail).
  exists h, h'. split.
  - rewrite Hrun. f_equal. f_equal. apply Hmissing. left.
    exists "Hi ", "name", "". repeat split; reflexivity.
  - rewrite Hrun'. f_equal. f_equal. apply Hemail. reflexivity.
Defined.

(** ** The bulk loop *)

Lemma tally_all outcomes : ∀ stats,
  let stats' := foldl tally stats outcomes in
  total stats' = total stats
  ∧ success stats' = success stats + sent_count (outcomes.*2)
  ∧ failed stats' = failed stats + (len outcomes - sent_count (outcomes.*2))
  ∧ failed_recipients stats' = failed_recipients stats ++ failures outcomes.
Proof.
  unfold sent_count, len, Zsum.
  induction outcomes as [|[recipient ok] outcomes IH]; intros stats; cbn.
  - rewrite app_nil_r. repeat split; lia.
  - destruct (IH (tally stats (recipient, ok))) as (Ht & Hs & Hf & Hl).
    cbn in *. rewrite Ht, Hs, Hf, Hl. unfold tally.
    destruct ok; cbn; rewrite <- ?app_assoc; repeat split; lia.
Qed.

Lemma failures_length outcomes :
  len (failures outcomes) = len outcomes - sent_count (outcomes.*2).
Proof.
  unfold sent_count, len, Zsum, failures.
  induction outcomes as [|[recipient []] outcomes IH]; cbn in *; lia.
Qed.

Section Bulk.
Context (env : environment) (self : EmailSenderBot).
Context (subject body_template : string) (attachments : option (list string)).
Context (delay : number) (n : Z).

(** The retry loop returns, whatever the mail server answers. *)
Lemma retry_loop_run msg recipient_email max_retries attempts : ∀ h,
  ∃ sent t, retry_loop env self msg recipient_email max_retries attempts h
            = (Returns sent, h ++ t).
Proof.
  induction attempts as [|attempt attempts IH]; intros h.
  - exists false, []. cbn. by rewrite app_nil_r.
  - rewrite retry_loop_step.
    destruct (smtp env h self msg) as [e|]; [|eauto].
    destruct e; eauto;
      (edestruct IH as (sent & t & ->); rewrite <- app_assoc; eauto).
Qed.

(** One turn of the bulk loop, by what [create_email_message] returned. *)
Lemma bulk_body_run i recipient stats h :
  sleepable delay = true →
  ∀ result h1,
    create_email_message env self recipient subject body_template attachments
      (h ++ [Print (processing_line i n (address recipient))])
    = (Returns result, h1) →
    match result with
    | Some m =>
        ∃ sent t,
          send_email_with_retry env self m (address recipient) 3 h1
          = (Returns sent, h1 ++ t)
          ∧ bulk_body env self subject body_template attachments delay n i
              recipient stats h
            = (Returns (tally stats (recipient, sent)),
               (h1 ++ t) ++ (if i <? n then [Sleep delay] else []))
    | None =>
        bulk_body env self subject body_template attachments delay n i
          recipient stats h
        = (Returns (tally stats (recipient, false)), h1)
    end.
Proof.
  intros Hdelay result h1 Hcreate.
  destruct (create_email_message_run env self recipient subject body_template
              attachments (h ++ [Print (processing_line i n (address recipient))]))
    as (result' & t' & Hrun & _ & Hnot & _).
  rewrite Hcreate in Hrun. injection Hrun as <- ->.
  unfold bulk_body. io_run. fold (address recipient). rewrite Hcreate.
  destruct result as [m|]; [|done].
  rewrite Hnot, bool_decide_eq_false_2 by done.
  destruct (retry_loop_run m (address recipient) 3 (range 3)
              ((h ++ [Print (processing_line i n (address recipient))]) ++ t'))
    as (sent & t & Hretry).
  exists sent, t. unfold send_email_with_retry. rewrite Hretry.
  split; [done|]. unfold time_sleep. rewrite Hdelay. io_run.
  destruct (i <? n); unfold tally; cbn; by rewrite ?app_nil_r.
Qed.

(** One turn of the bulk loop returns, with one outcome for the
    recipient. *)
Lemma bulk_body_returns i recipient stats h :
  sleepable delay = true →
  ∃ ok t, bulk_body env self subject body_template attachments delay n i
            recipient stats h
          = (Returns (tally stats (recipient, ok)), h ++ t).
Proof.
  intros Hdelay.
  destruct (create_email_message_run env self recipient subject body_template
              attachments (h ++ [Print (processing_line i n (address recipient))]))
    as (result & t1 & Hrun & _).
  pose proof (bulk_body_run i recipient stats h Hdelay _ _ Hrun) as Hbody.
  destruct result as [m|].
  - destruct Hbody as (sent & t & _ & ->). exists sent.
    rewrite <- !app_assoc. eauto.
  - rewrite Hbody. exists false. rewrite <- app_assoc. eauto.
Qed.

(** The loop returns, with one outcome for each recipient that remains. *)
Lemma bulk_loop_run remaining : ∀ i stats h,
  sleepable delay = true →
  ∃ outcomes t,
    bulk_loop env self subject body_template attachments delay n i
      remaining stats h
    = (Returns (foldl tally stats (zip remaining outcomes)), h ++ t)
    ∧ length outcomes = length remaining.
Proof.
  induction remaining as [|recipient remaining IH]; intros i stats h Hdelay.
  - exists [], []. cbn. by rewrite app_nil_r.
  - cbn [bulk_loop]. io_run.
    destruct (bulk_body_returns i recipient stats h Hdelay) as (ok & t1 & ->).
    destruct (IH (i + 1) (tally stats (recipient, ok)) (h ++ t1) Hdelay)
      as (outcomes & t2 & -> & Hlen).
    exists (ok :: outcomes), (t1 ++ t2). rewrite app_assoc. cbn. eauto.
Qed.

End Bulk.

(** C1. With a delay that [time.sleep] accepts, the bulk operation returns
    statistics in which every recipient has exactly one outcome, sent or
    failed: [success] counts the sent ones, [failed_recipients] lists the
    addresses of the failed ones in order, so that
    [success + failed = total] and [len(failed_recipients) = failed]. *)
Theorem bulk_statistics_add_up env self recipients subject body_template
    attachments delay h :
  sleepable delay = true →
  ∃ stats h' outcomes,
    send_bulk_emails env self recipients subject body_template attachments
      delay h = (Returns stats, h')
    ∧ success stats + failed stats = total stats
    ∧ len (failed_recipients stats) = failed stats
    ∧ length outcomes = length recipients
    ∧ total stats = len recipients
    ∧ success stats = sent_count outcomes
    ∧ failed_recipients stats = failures (zip recipients outcomes).
Proof.
  intros Hdelay. unfold send_bulk_emails. io_run.
  match goal with |- context [bulk_loop _ _ _ _ _ _ _ _ _ ?s ?h0] =>
    destruct (bulk_loop_run env self subject body_template attachments delay
                (len recipients) recipients 1 s h0 Hdelay)
      as (outcomes & t & -> & Hlen);
    pose proof (tally_all (zip recipients outcomes) s) as (Ht & Hs & Hf & Hl)
  end.
  cbn in Ht, Hs, Hf, Hl.
  assert (Hzip : len (zip recipients outcomes) = len recipients)
    by (unfold len; rewrite length_zip; lia).
  rewrite snd_zip in Hs, Hf by lia.
  eexists _, _, outcomes. split; [done|].
  rewrite Ht, Hs, Hf, Hl, failures_length, Hzip, snd_zip by lia.
  repeat split; lia.
Qed.

Lemma bulk_statistics_add_up_witness :
  ∃ stats h' outcomes,
    send_bulk_emails (Examples.failing SMTPRecipientsRefused) Examples.bot
      [Examples.alice; Examples.unnamed] "Hi {name}" "Hello {name}!" None
      (Int 2) [] = (Returns stats, h')
    ∧ success stats + failed stats = total stats
    ∧ len (failed_recipients stats) = failed stats
    ∧ length outcomes = 2%nat
    ∧ total stats = 2
    ∧ success stats = sent_count outcomes
    ∧ failed_recipients stats
      = failures (zip [Examples.alice; Examples.unnamed] outcomes).
Proof.
  apply (bulk_statistics_add_up (Examples.failing SMTPRecipientsRefused)
           Examples.bot [Examples.alice; Examples.unnamed] "Hi {name}"
           "Hello {name}!" None (Int 2) []).
  reflexivity.
Defined.

(** C6. When [create_email_message] returns [None] for a recipient, the
    history has gained no SMTP session and no sleep for it, the loop goes
    on with the recipients that remain and with that recipient counted as
    failed under its address, and the loop returns its statistics: the
    failure does not end the batch. *)
Theorem render_failure_is_counted env self subject body_template attachments
    delay n i recipient remaining stats h h1 :
  sleepable delay = true →
  create_email_message env self recipient subject body_template attachments
    (h ++ [Print (processing_line i n (address recipient))])
  = (Returns None, h1) →
  (∃ t, h1 = h ++ t ∧ schedule t = [])
  ∧ bulk_loop env self subject body_template attachments delay n i
      (recipient :: remaining) stats h
    = bulk_loop env self subject body_template attachments delay n (i + 1)
        remaining (count_failure stats (address recipient)) h1
  ∧ ∃ stats' h',
      bulk_loop env self subject body_template attachments delay n i
        (recipient :: remaining) stats h = (Returns stats', h').
Proof.
  intros Hdelay Hcreate. split; [|split].
  - destruct (create_email_message_run env self recipient subject body_template
                attachments (h ++ [Print (processing_line i n (address recipient))]))
      as (result & t & Hrun & Ht & _).
    rewrite Hcreate in Hrun. injection Hrun as _ ->.
    exists (Print (processing_line i n (address recipient)) :: t).
    split; [by rewrite <- app_assoc | done].
  - cbn [bulk_loop]. io_run.
    by rewrite (bulk_body_run env self subject body_template attachments delay
                  n i recipient stats h Hdelay None h1 Hcreate).
  - destruct (bulk_loop_run env self subject body_template attachments delay n
                (recipient :: remaining) i stats h Hdelay) as (? & ? & -> & _).
    eauto.
Qed.

Lemma render_failure_is_counted_witness :
  ∃ h1,
    bulk_loop Examples.quiet Examples.bot "Hi {name}" "Hello {name}!" None
      Examples.two_seconds 2 1 [Examples.unnamed; Examples.alice]
      (mkStats 2 0 0 []) []
    = bulk_loop Examples.quiet Examples.bot "Hi {name}" "Hello {name}!" None
        Examples.two_seconds 2 2 [Examples.alice]
        (mkStats 2 0 1 [PyStr "u@x.com"]) h1
    ∧ schedule h1 = [].
Proof.
  eexists.
  destruct (render_failure_is_counted Examples.quiet Examples.bot "Hi {name}"
              "Hello {name}!" None Examples.two_seconds 2 1 Examples.unnamed
              [Examples.alice] (mkStats 2 0 0 []) []
              [Print (processing_line 1 2 (PyStr "u@x.com"));
               Log ERROR (ErrorCreatingMessage (PyStr "u@x.com") (KeyError "name"))])
    as (_ & Hloop & _); [reflexivity | reflexivity |].
  split; [exact Hloop | reflexivity].
Defined.




(** ** The report *)

Section FloatFacts.

Lemma digits2_pos_bounds (p : positive) :
  2 ^ (Z.pos (digits2_pos p) - 1) ≤ Z.pos p < 2 ^ Z.pos (digits2_pos p).
Proof.
  induction p as [p IH|p IH|]; cbn [digits2_pos].
  - rewrite Pos2Z.inj_succ.
    replace (Z.succ (Z.pos (digits2_pos p)) - 1) with (Z.succ (Z.pos (digits2_pos p) - 1)) by lia.
    rewrite !Z.pow_succ_r by lia. lia.
  - rewrite Pos2Z.inj_succ.
    replace (Z.succ (Z.pos (digits2_pos p)) - 1) with (Z.succ (Z.pos (digits2_pos p) - 1)) by lia.
    rewrite !Z.pow_succ_r by lia. lia.
  - cbn. lia.
Qed.

Lemma Zdigits2_le m k : 0 ≤ m → 0 ≤ k → m < 2 ^ k → Zdigits2 m ≤ k.
Proof.
  intros Hm Hk Hlt. destruct m as [|p|p]; cbn; [lia| |lia].
  pose proof (digits2_pos_bounds p) as [Hlo _].
  destruct (Z.le_gt_cases (Z.pos (digits2_pos p)) k) as [|Hgt]; [done|].
  exfalso. assert (2 ^ k ≤ 2 ^ (Z.pos (digits2_pos p) - 1))
    by (apply Z.pow_le_mono_r; lia). lia.
Qed.

Lemma shr_1_m mrs : 0 ≤ shr_m mrs → shr_m (shr_1 mrs) = shr_m mrs / 2.
Proof.
  destruct mrs as [m r s]. cbn. intros Hm.
  destruct m as [|[p|p|]|p]; cbn [shr_m]; try reflexivity; try lia;
    [apply Z.div_unique with 1 | apply Z.div_unique with 0]; lia.
Qed.

Lemma iter_pos_shr_m p : ∀ mrs,
  0 ≤ shr_m mrs → shr_m (SpecFloat.iter_pos shr_1 p mrs) = shr_m mrs / 2 ^ Z.pos p.
Proof.
  induction p as [p IH|p IH|]; intros mrs Hm; cbn [SpecFloat.iter_pos].
  - assert (H1 : 0 ≤ shr_m (shr_1 mrs)) by (rewrite shr_1_m by done; apply Z.div_pos; lia).
    assert (H2 : 0 ≤ shr_m (SpecFloat.iter_pos shr_1 p (shr_1 mrs)))
      by (rewrite IH by done; apply Z.div_pos; lia).
    assert (Hpow : 2 ^ Z.pos p~1 = 2 * 2 ^ Z.pos p * 2 ^ Z.pos p).
    { rewrite <- Z.mul_assoc, <- Z.pow_add_r, <- Z.pow_succ_r by lia. f_equal. lia. }
    rewrite IH, IH, shr_1_m, Hpow by done.
    rewrite !Z.div_div by lia. f_equal; ring.
  - assert (H2 : 0 ≤ shr_m (SpecFloat.iter_pos shr_1 p mrs))
      by (rewrite IH by done; apply Z.div_pos; lia).
    assert (Hpow : 2 ^ Z.pos p~0 = 2 ^ Z.pos p * 2 ^ Z.pos p).
    { rewrite <- Z.pow_add_r by lia. f_equal. lia. }
    rewrite IH, IH, Hpow by done.
    rewrite !Z.div_div by lia. f_equal; ring.
  - by rewrite shr_1_m.
Qed.

(** Right shift by [fexp]: the exponent reached and a bound on the
    mantissa. *)
Lemma shr_fexp_bounds prec emax m e l k :
  0 ≤ m → 0 ≤ k → m < 2 ^ k →
  let '(mrs, e') := shr_fexp prec emax m e l in
  e' = Z.max e (fexp prec emax (Zdigits2 m + e))
  ∧ 0 ≤ shr_m mrs
  ∧ shr_m mrs * 2 ^ (e' - e) ≤ m.
Proof.
  intros Hm Hk Hlt. unfold shr_fexp, shr.
  set (f := fexp prec emax (Zdigits2 m + e)).
  assert (Hrec : shr_m (shr_record_of_loc m l) = m) by (by destruct l as [|[]]).
  destruct (f - e) as [|p|p] eqn:Hn.
  - rewrite Hrec. replace (e - e) with 0 by lia. split; [lia|]. split; [lia|]. cbn; lia.
  - rewrite iter_pos_shr_m, Hrec by (rewrite Hrec; lia).
    replace (e + Z.pos p - e) with (Z.pos p) by lia.
    split; [lia|]. split; [apply Z.div_pos; lia|].
    rewrite Z.mul_comm. apply Z.mul_div_le. lia.
  - rewrite Hrec. replace (e - e) with 0 by lia. split; [lia|]. split; [lia|]. cbn; lia.
Qed.

Lemma fexp_le x : x ≤ 1024 → fexp 53 1024 x ≤ 971.
Proof. unfold fexp, emin. lia. Qed.

Lemma round_nearest_even_bounds m l :
  0 ≤ m → 0 ≤ round_nearest_even m l ≤ m + 1.
Proof.
  intros Hm. unfold round_nearest_even.
  destruct l as [|[]]; try destruct (Z.even m); lia.
Qed.

Lemma binary_round_aux_finite s m e l k :
  0 ≤ m → 0 ≤ k → m < 2 ^ k → e ≤ 971 → k + e ≤ 1023 →
  finite (binary_round_aux 53 1024 s m e l) = true.
Proof.
  intros Hm Hk Hlt He Hke. unfold binary_round_aux.
  pose proof (shr_fexp_bounds 53 1024 m e l k Hm Hk Hlt) as H1.
  destruct (shr_fexp 53 1024 m e l) as [mrs' e'].
  destruct H1 as (He' & Hm' & Hshift).
  set (m1 := round_nearest_even (shr_m mrs') (loc_of_shr_record mrs')).
  pose proof (round_nearest_even_bounds (shr_m mrs') (loc_of_shr_record mrs') Hm')
    as [Hm1 Hm1'].
  fold m1 in Hm1, Hm1'.
  pose proof (Zdigits2_le m k Hm Hk Hlt) as Hd.
  assert (He'le : e' ≤ 971).
  { rewrite He'. apply Z.max_lub; [done|]. apply fexp_le. lia. }
  assert (He'ge : e ≤ e') by lia.
  assert (Hd1 : Zdigits2 m1 + e' ≤ 1024).
  { destruct (Z.le_gt_cases (e' - e) k) as [Hj|Hj].
    - assert (Zdigits2 m1 ≤ k - (e' - e) + 1); [|lia].
      apply Zdigits2_le; [done | lia |].
      assert (shr_m mrs' < 2 ^ (k - (e' - e))); [|rewrite Z.pow_add_r by lia; lia].
      apply Z.mul_lt_mono_pos_r with (2 ^ (e' - e)); [apply Z.pow_pos_nonneg; lia|].
      rewrite <- Z.pow_add_r by lia.
      replace (k - (e' - e) + (e' - e)) with k by lia. lia.
    - assert (shr_m mrs' = 0).
      { assert (2 ^ k < 2 ^ (e' - e)) by (apply Z.pow_lt_mono_r; lia).
        assert (0 < 2 ^ k) by (apply Z.pow_pos_nonneg; lia). nia. }
      assert (Zdigits2 m1 ≤ 1); [|lia].
      apply Zdigits2_le; [done | lia |]. cbn. lia. }
  pose proof (shr_fexp_bounds 53 1024 m1 e' loc_Exact (Z.max 0 (Zdigits2 m1))) as H2.
  destruct (shr_fexp 53 1024 m1 e' loc_Exact) as [mrs'' e''].
  destruct H2 as (He'' & Hm'' & _); [done | lia | |].
  { destruct m1 as [|p|p]; [cbn; lia | | lia].
    cbn [Zdigits2]. pose proof (digits2_pos_bounds p). 
    rewrite Z.max_r by lia. lia. }
  destruct (shr_m mrs'') as [|p|p]; [done | | lia].
  replace (e'' <=? 1024 - 53) with true; [done|].
  symmetry. apply Z.leb_le. rewrite He''. apply Z.max_lub; [lia|].
  etransitivity; [apply fexp_le; lia | lia].
Qed.

Lemma SFdiv_finite (a b : positive) :
  (a ≤ b)%positive →
  finite (SFdiv 53 1024 (S754_finite false a 0) (S754_finite false b 0)) = true.
Proof.
  intros Hab. unfold SFdiv, SFdiv_core_binary.
  set (e' := Z.min (fexp 53 1024 (Zdigits2 (Z.pos a) + 0 - (Zdigits2 (Z.pos b) + 0)))
                   (0 - 0)).
  assert (He' : e' ≤ 0) by (unfold e'; lia).
  set (m' := match 0 - 0 - e' with
             | 0 => Z.pos a
             | Z.pos _ => Z.shiftl (Z.pos a) (0 - 0 - e')
             | Z.neg _ => 0
             end).
  assert (Hm' : m' = Z.pos a * 2 ^ (- e')).
  { unfold m'. destruct (0 - 0 - e') as [|p|p] eqn:Hs; [| |lia].
    - replace (- e') with 0 by lia. lia.
    - rewrite Z.shiftl_mul_pow2 by lia. f_equal. f_equal. lia. }
  pose proof (Z.div_eucl_eq m' (Z.pos b) ltac:(lia)) as Heq.
  pose proof (Z.mod_pos_bound m' (Z.pos b) ltac:(lia)) as Hr.
  unfold Z.modulo in Hr.
  destruct (Z.div_eucl m' (Z.pos b)) as [q r].
  assert (Hpow : 0 < 2 ^ (- e')) by (apply Z.pow_pos_nonneg; lia).
  assert (Hq : 0 ≤ q ≤ 2 ^ (- e')) by nia.
  apply binary_round_aux_finite with (k := - e' + 1); try lia.
  rewrite Z.pow_add_r by lia. lia.
Qed.

Lemma truediv_returns a b :
  0 ≤ a ≤ b → 0 < b →
  ∃ q, PyFloat.truediv a b = Returns q ∧ finite q = true.
Proof.
  intros Ha Hb. unfold PyFloat.truediv.
  replace (b =? 0) with false by (symmetry; apply Z.eqb_neq; lia).
  destruct b as [|pb|pb]; [lia| |lia].
  destruct a as [|pa|pa]; [by eexists | |lia].
  pose proof (SFdiv_finite pa pb ltac:(lia)) as Hfin.
  unfold PyFloat.exact, PyFloat.prec, PyFloat.emax.
  destruct (SFdiv 53 1024 _ _) eqn:Hq; try done; by eexists.
Qed.

Lemma div_half_even_nearest n d :
  0 < d →
  2 * Z.abs (n - PyFloat.div_half_even n d * d) ≤ d
  ∧ (2 * Z.abs (n - PyFloat.div_half_even n d * d) = d
     → Z.even (PyFloat.div_half_even n d) = true).
Proof.
  intros Hd. unfold PyFloat.div_half_even.
  pose proof (Z.div_mod n d ltac:(lia)) as Hn.
  pose proof (Z.mod_pos_bound n d Hd) as Hr.
  destruct (Z.compare_spec (2 * (n mod d)) d) as [Heq|Hlt|Hgt].
  - destruct (Z.even (n / d)) eqn:Heven.
    + split; [lia | done].
    + split; [lia|]. intros _. rewrite Z.even_add, Heven. done.
  - split; lia.
  - split; lia.
Qed.

Lemma tenths_nearest m e : nearest_tenths m e (PyFloat.tenths m e).
Proof.
  unfold nearest_tenths, PyFloat.tenths.
  destruct (Z.leb_spec 0 e) as [He|He].
  - rewrite Z.max_l, Z.max_r by lia. cbn [Z.pow]. split; lia.
  - rewrite Z.max_r, Z.max_l by lia. rewrite Z.pow_0_r, Z.mul_1_r.
    apply div_half_even_nearest. apply Z.pow_pos_nonneg; lia.
Qed.

Lemma format_1f_one_decimal x : one_decimal x (PyFloat.format_1f (Float x)).
Proof.
  destruct x as [s|s| |s m e]; cbn; try done.
  exists (PyFloat.tenths m e). split; [apply tenths_nearest | done].
Qed.

End FloatFacts.

Section Report.
Context (env : environment).

(** [generate_report] prints the report, whose seventh line is the rate,
    and returns, whether the file can be written or not. *)
Lemma generate_report_run stats output_file h line :
  success_rate_line stats = Returns line →
  ∃ report t,
    generate_report env stats output_file h
    = (Returns tt, h ++ Print (join nl report) :: t)
    ∧ report !! 6%nat = Some line.
Proof.
  intros Hline. unfold generate_report. io_run. rewrite Hline.
  set (report := match failed_recipients stats with [] => _ | _ => _ end).
  assert (Hreport : report !! 6%nat = Some line)
    by (unfold report; by destruct (failed_recipients stats)).
  exists report.
  destruct output_file as [[|c path]|].
  - exists []. done.
  - unfold write_file.
    destruct (write_text env (h ++ [Print (join nl report)]) (String c path)
                (join nl report)) as [e|];
      eexists; rewrite <- ?app_assoc; done.
  - exists []. done.
Qed.

Lemma generate_report_raises stats output_file h e :
  success_rate_line stats = Raises e →
  generate_report env stats output_file h = (Raises e, h).
Proof. intros Hline. unfold generate_report. io_run. by rewrite Hline. Qed.

(** The division is evaluated only under [total > 0]. *)
Lemma success_rate_line_divides_safely stats :
  success_rate_line stats ≠ Raises ZeroDivisionError.
Proof.
  unfold success_rate_line, success_rate, PyFloat.truediv.
  destruct (Z.ltb_spec 0 (total stats)) as [Hpos|Hneg]; [|done].
  replace (total stats =? 0) with false by (symmetry; apply Z.eqb_neq; lia).
  by destruct (SFdiv _ _ _ _).
Qed.

End Report.

(** C8. The report never divides by zero: with [total] zero (or less) the
    rate line reads ["Success Rate: 0.0%"] and no division is evaluated;
    with [0 <= success <= total] and a positive [total] the division
    returns the float nearest to [success / total], and the line shows
    that float times 100 rounded to one decimal place.  In both cases
    [generate_report] prints the line and returns. *)
Theorem report_success_rate env stats output_file h :
  (∀ h', generate_report env stats output_file h
         ≠ (Raises ZeroDivisionError, h'))
  ∧ (total stats ≤ 0 ∨ 0 ≤ success stats ≤ total stats →
     ∃ rate report t,
       generate_report env stats output_file h
       = (Returns tt, h ++ Print (join nl report) :: t)
       ∧ report !! 6%nat = Some ("Success Rate: " +:+ rate +:+ "%")
       ∧ (total stats ≤ 0 → rate = "0.0")
       ∧ (0 < total stats →
          ∃ q, PyFloat.truediv (success stats) (total stats) = Returns q
               ∧ one_decimal (PyFloat.mul q (PyFloat.of_int 100)) rate)).
Proof.
  split.
  - intros h' Hraises.
    destruct (success_rate_line stats) as [line|e] eqn:Hline.
    + destruct (generate_report_run env stats output_file h line Hline)
        as (? & ? & Hrun & _). congruence.
    + rewrite (generate_report_raises env stats output_file h e Hline) in Hraises.
      injection Hraises as -> _.
      by apply success_rate_line_divides_safely in Hline.
  - intros Hstats.
    destruct (Z.ltb_spec 0 (total stats)) as [Hpos|Hneg].
    + destruct Hstats as [?|Hstats]; [lia|].
      destruct (truediv_returns (success stats) (total stats) Hstats Hpos)
        as (q & Hq & _).
      set (rate := PyFloat.format_1f (Float (PyFloat.mul q (PyFloat.of_int 100)))).
      assert (Hline : success_rate_line stats
                      = Returns ("Success Rate: " +:+ rate +:+ "%")).
      { unfold success_rate_line, success_rate.
        replace (0 <? total stats) with true by (symmetry; apply Z.ltb_lt; lia).
        by rewrite Hq. }
      destruct (generate_report_run env stats output_file h _ Hline)
        as (report & t & Hrun & Hreport).
      exists rate, report, t. repeat split; try done; try lia.
      intros _. exists q. split; [done|]. apply format_1f_one_decimal.
    + assert (Hline : success_rate_line stats
                      = Returns ("Success Rate: " +:+ "0.0" +:+ "%")).
      { unfold success_rate_line, success_rate.
        by replace (0 <? total stats) with false by (symmetry; apply Z.ltb_ge; lia). }
      destruct (generate_report_run env stats output_file h _ Hline)
        as (report & t & Hrun & Hreport).
      exists "0.0", report, t. repeat split; try done; lia.
Qed.

Lemma report_success_rate_witness :
  ∃ rate report t,
    generate_report Examples.quiet (mkStats 0 0 0 []) None []
    = (Returns tt, [] ++ Print (join nl report) :: t)
    ∧ report !! 6%nat = Some ("Success Rate: " +:+ rate +:+ "%")
    ∧ rate = "0.0".
Proof.
  destruct (report_success_rate Examples.quiet (mkStats 0 0 0 []) None [])
    as [_ Hreport].
  destruct Hreport as (rate & report & t & Hrun & Hline & Hzero & _).
  - left. cbn. lia.
  - exists rate, report, t. repeat split; try done. apply Hzero. cbn. lia.
Defined.

(** ** The scenarios of the specification *)

Example loader_drops_bad_row :
  (read_recipients_from_csv
     (Examples.with_csv [Examples.alice; Examples.bad; Examples.carol])
     "recipients.csv" []).1
  = Returns [Examples.alice; Examples.carol].
Proof. reflexivity. Qed.

Example all_sent :
  (send_bulk_emails Examples.quiet Examples.bot [Examples.alice; Examples.carol]
     "Hi {name}" "Hello {name}!" None Examples.two_seconds []).1
  = Returns (mkStats 2 2 0 []).
Proof. reflexivity. Qed.

Example one_refused :
  let env := mkEnv (λ _ _ msg,
                      if bool_decide (("To", PyStr "a@x.com") ∈ headers msg)
                      then Some SMTPRecipientsRefused else None)
                   (path_exists Examples.quiet) (read_bytes Examples.quiet)
                   (csv_file_source Examples.quiet) (write_text Examples.quiet)
                   (format_field Examples.quiet) in
  let run := send_bulk_emails env Examples.bot [Examples.alice; Examples.carol]
               "Hi {name}" "Hello {name}!" None Examples.two_seconds [] in
  run.1 = Returns (mkStats 2 1 1 [PyStr "a@x.com"])
  ∧ attempts (schedule run.2) = 2.
Proof. split; vm_compute; reflexivity. Qed.

Example report_of_empty_run :
  success_rate_line (mkStats 0 0 0 []) = Returns "Success Rate: 0.0%".
Proof. reflexivity. Qed.

Example report_two_thirds :
  success_rate_line (mkStats 3 2 1 [PyStr "a@x.com"])
  = Returns "Success Rate: 66.7%".
Proof. vm_compute. reflexivity. Qed.

(** [1/16*100] is the float 6.25, half way between two tenths: the even
    one is shown. *)
Example report_tie_to_even :
  success_rate_line (mkStats 16 1 15 []) = Returns "Success Rate: 6.2%".
Proof. vm_compute. reflexivity. Qed.

(** An attachment that exists but cannot be read is an error that
    [attach_file] handles itself: the message is returned without it. *)
Example unreadable_attachment_is_left_out :
  let env := mkEnv (smtp Examples.quiet) (λ _ _, true)
                   (λ _ _, Raises PermissionError)
                   (csv_file_source Examples.quiet) (write_text Examples.quiet)
                   (format_field Examples.quiet) in
  create_email_message env Examples.bot Examples.alice "Hi {name}" "Hello {name}!"
    (Some ["/tmp/offer.pdf"]) []
  = (Returns (Some Examples.message),
     [Log ERROR (FailedToAttach "/tmp/offer.pdf" PermissionError)]).
Proof. reflexivity. Qed.

(** * Further properties *)

(** ** The retry loop, whatever the server answers *)

Lemma session_outcomes_app env t1 : ∀ h t2,
  session_outcomes env h (t1 ++ t2)
  = session_outcomes env h t1 ++ session_outcomes env (h ++ t1) t2.
Proof.
  induction t1 as [|ev t1 IH]; intros h t2.
  - cbn. by rewrite app_nil_r.
  - cbn [app session_outcomes]. rewrite IH, <- !app_assoc. done.
Qed.

Lemma printed_app t1 t2 : printed (t1 ++ t2) = printed t1 ++ printed t2.
Proof. unfold printed. apply omap_app. Qed.

Section RetryTrace.
Context (env : environment) (self : EmailSenderBot).
Context (msg : Message) (recipient_email : pyval) (max_retries : Z).

(** The loop over the attempts [j, ..., max_retries - 1]: it makes [k + 1]
    of them, waits after each but the last one made, and returns [True]
    exactly when the last session made completed. *)
Lemma retry_loop_trace : ∀ m j h,
  Z.of_nat (j + S m) = max_retries →
  ∃ sent t k failed,
    retry_loop env self msg recipient_email max_retries
      (Z.of_nat <$> seq j (S m)) h = (Returns sent, h ++ t)
    ∧ (k ≤ m)%nat
    ∧ schedule t
      = ((Z.of_nat <$> seq j k) ≫= λ i, [Attempt; Wait (Int (2 ^ i))])
        ++ [Attempt]
    ∧ printed t = []
    ∧ session_outcomes env h t
      = (Some <$> failed) ++ (if sent : bool then [None] else []).
Proof.
  induction m as [|m IH]; intros j h Hmax.
  - change (Z.of_nat <$> seq j 1) with [Z.of_nat j].
    rewrite retry_loop_step.
    replace (Z.of_nat j <? max_retries - 1) with false
      by (symmetry; apply Z.ltb_ge; lia).
    destruct (smtp env h self msg) as [e|] eqn:Hsmtp.
    + destruct e;
        (exists false; eexists _, 0%nat, [_]; cbn [retry_loop];
         split; [reflexivity|]; split; [lia|]; split; [reflexivity|];
         split; [reflexivity|]; cbn; by rewrite Hsmtp).
    + exists true. eexists. exists 0%nat, [].
      split; [reflexivity|]. split; [lia|]. split; [reflexivity|].
      split; [reflexivity|]. cbn. by rewrite Hsmtp.
  - change (Z.of_nat <$> seq j (S (S m)))
      with (Z.of_nat j :: (Z.of_nat <$> seq (S j) (S m))).
    rewrite retry_loop_step.
    replace (Z.of_nat j <? max_retries - 1) with true
      by (symmetry; apply Z.ltb_lt; lia).
    destruct (smtp env h self msg) as [e|] eqn:Hsmtp.
    + destruct e;
        first
          [ (* a refusal: the loop ends here *)
            exists false; eexists _, 0%nat, [_];
            split; [reflexivity|]; split; [lia|]; split; [reflexivity|];
            split; [reflexivity|]; cbn; by rewrite Hsmtp
          | (* any other exception: wait and go on *)
            edestruct (IH (S j))
              as (sent & t & k & failed & Hrun & Hk & Hsched & Hprint & Hout);
            [lia|]; rewrite Hrun;
            exists sent; eexists _, (S k), (_ :: failed);
            split; [by rewrite <- app_assoc|]; split; [lia|];
            split; [by rewrite schedule_app, Hsched|];
            split; [by rewrite printed_app, Hprint|];
            rewrite session_outcomes_app, Hout; cbn; by rewrite Hsmtp ].
    + exists true. eexists. exists 0%nat, [].
      split; [reflexivity|]. split; [lia|]. split; [reflexivity|].
      split; [reflexivity|]. cbn. by rewrite Hsmtp.
Qed.

End RetryTrace.

(** X1. Whatever the mail server answers, the retry operation returns, and
    what it did is the beginning of the backoff schedule: [k] attempts
    with waits of 1, 2, 4, ... seconds between them and none after the
    last, for some [k] from 1 to [max_retries]; nothing at all when
    [max_retries] is zero or negative. *)
Theorem retry_follows_backoff env self msg recipient_email max_retries h :
  ∃ sent t,
    send_email_with_retry env self msg recipient_email max_retries h
    = (Returns sent, h ++ t)
    ∧ ((max_retries ≤ 0 ∧ t = [] ∧ sent = false)
       ∨ ∃ k, 1 ≤ k ≤ max_retries ∧ schedule t = backoff k).
Proof.
  unfold send_email_with_retry, range.
  destruct (Z.le_gt_cases max_retries 0) as [Hle|Hgt].
  - replace (Z.to_nat max_retries) with 0%nat by lia.
    exists false, []. cbn. rewrite app_nil_r. split; [done|]. by left.
  - replace (Z.to_nat max_retries) with (S (Z.to_nat (max_retries - 1))) by lia.
    destruct (retry_loop_trace env self msg recipient_email max_retries
                (Z.to_nat (max_retries - 1)) 0%nat h)
      as (sent & t & k & failed & Hrun & Hk & Hsched & _ & _); [lia|].
    exists sent, t. split; [done|]. right. exists (Z.of_nat k + 1).
    split; [lia|]. unfold backoff, range. rewrite Hsched.
    by replace (Z.to_nat (Z.of_nat k + 1 - 1)) with k by lia.
Qed.

(** X2. The result of the retry operation says what happened to the
    message: every session it opened raised, except that the last one
    completed exactly when the result is [True]. *)
Theorem retry_result_reflects_sessions env self msg recipient_email
    max_retries h :
  ∃ sent t failed,
    send_email_with_retry env self msg recipient_email max_retries h
    = (Returns sent, h ++ t)
    ∧ session_outcomes env h t
      = (Some <$> failed) ++ (if sent : bool then [None] else []).
Proof.
  unfold send_email_with_retry, range.
  destruct (Z.le_gt_cases max_retries 0) as [Hle|Hgt].
  - replace (Z.to_nat max_retries) with 0%nat by lia.
    exists false, [], []. cbn. by rewrite app_nil_r.
  - replace (Z.to_nat max_retries) with (S (Z.to_nat (max_retries - 1))) by lia.
    destruct (retry_loop_trace env self msg recipient_email max_retries
                (Z.to_nat (max_retries - 1)) 0%nat h)
      as (sent & t & k & failed & Hrun & _ & _ & _ & Hout); [lia|].
    by exists sent, t, failed.
Qed.

(** ** The loader, on every source *)

Lemma read_rows_trace rows : ∀ i recipients h,
  read_rows i rows recipients h
  = (Returns (recipients ++ filter (λ row, ¬ email_excluded row) rows),
     h ++ imap (λ k row, row_record (i + Z.of_nat k) row) rows).
Proof.
  induction rows as [|row rows IH]; intros i recipients h.
  { cbn. by rewrite !app_nil_r. }
  cbn [read_rows imap]. unfold contains, get, get_default, falsy, lacks_at.
  rewrite filter_cons. unfold row_record at 1.
  assert (Hex : email_excluded row
                ↔ match columns row !! "email" with
                  | Some (PyStr s) => s = "" ∨ char_in "@" s = false
                  | _ => True
                  end) by (unfold email_excluded; by repeat case_match).
  assert (Himap : imap ((λ k row, row_record (i + Z.of_nat k) row) ∘ S) rows
                  = imap (λ k row, row_record (i + 1 + Z.of_nat k) row) rows).
  { apply imap_ext. intros k x _. cbn. f_equal. lia. }
  rewrite Himap, Z.add_0_r.
  destruct (columns row !! "email") as [[|s]|] eqn:Hemail; cbn.
  - rewrite decide_False, decide_True by tauto. io_run.
    by rewrite IH, <- app_assoc.
  - destruct (bool_decide (s = "")) eqn:Hs; cbn.
    + apply bool_decide_eq_true_1 in Hs.
      rewrite decide_False, decide_True by tauto. io_run.
      by rewrite IH, <- app_assoc.
    + apply bool_decide_eq_false_1 in Hs.
      destruct (char_in "@" s) eqn:Hat; cbn.
      * assert (¬ email_excluded row)
          by (rewrite Hex; intros [?|?]; congruence).
        rewrite decide_True, decide_False by done. io_run.
        by rewrite IH, <- !app_assoc.
      * rewrite decide_False, decide_True by tauto. io_run.
        by rewrite IH, <- app_assoc.
  - rewrite decide_False by tauto. io_run.
    by rewrite IH, <- app_assoc.
Qed.

(** The loader on each kind of source. *)
Lemma loader_run env csv_file h :
  read_recipients_from_csv env csv_file h
  = let failure e := Log ERROR (match e with
                                | FileNotFoundError => CsvFileNotFound csv_file
                                | _ => ErrorReadingCsv e
                                end) in
    match csv_file_source env h csv_file with
    | OpenRaises e => (Returns [], h ++ [failure e])
    | CsvRows rows stops_with =>
        let kept := filter (λ row, ¬ email_excluded row) rows in
        let t := imap (λ k row, row_record (1 + Z.of_nat k) row) rows in
        match stops_with with
        | None =>
            (Returns kept,
             h ++ t ++ [Log INFO (LoadedRecipients (len kept) csv_file)])
        | Some e => (Returns [], h ++ t ++ [failure e])
        end
    end.
Proof.
  unfold read_recipients_from_csv. io_run.
  destruct (csv_file_source env h csv_file) as [e|rows [e|]].
  - by destruct e.
  - rewrite read_rows_trace. cbn. destruct e; by rewrite <- app_assoc.
  - rewrite read_rows_trace. cbn. by rewrite <- app_assoc.
Qed.

(** X3. The loader accounts for every row it reads: when the file is read
    to its end, the log gains one record per row, in order and numbered
    from 1 (a warning for a row left out, an information for a row kept),
    and a last record with the number of recipients returned. *)
Theorem loader_logs_every_row env csv_file rows h :
  csv_file_source env h csv_file = CsvRows rows None →
  let kept := filter (λ row, ¬ email_excluded row) rows in
  read_recipients_from_csv env csv_file h
  = (Returns kept,
     h ++ imap (λ k row, row_record (1 + Z.of_nat k) row) rows
       ++ [Log INFO (LoadedRecipients (len kept) csv_file)]).
Proof.
  intros Hsrc kept. by rewrite loader_run, Hsrc.
Qed.

Lemma loader_logs_every_row_witness :
  read_recipients_from_csv
    (Examples.with_csv [Examples.alice; Examples.bad; Examples.nameless])
    "recipients.csv" []
  = (Returns [Examples.alice],
     [Log INFO (LoadedRecipient (PyStr "a@x.com"));
      Log WARNING (RowInvalidEmail 2 (PyStr "bad"));
      Log WARNING (RowMissingEmail 3);
      Log INFO (LoadedRecipients 1 "recipients.csv")]).
Proof.
  apply (loader_logs_every_row
           (Examples.with_csv [Examples.alice; Examples.bad; Examples.nameless])
           "recipients.csv" [Examples.alice; Examples.bad; Examples.nameless] []).
  reflexivity.
Defined.

(** X4. When the reader raises after some rows, the rows already accepted
    are lost: the loader logs the rows it read, then one error, and
    returns the empty list. *)
Theorem loader_drops_rows_on_read_error env csv_file rows e h :
  csv_file_source env h csv_file = CsvRows rows (Some e) →
  read_recipients_from_csv env csv_file h
  = (Returns [],
     h ++ imap (λ k row, row_record (1 + Z.of_nat k) row) rows
       ++ [Log ERROR (match e with
                      | FileNotFoundError => CsvFileNotFound csv_file
                      | _ => ErrorReadingCsv e
                      end)]).
Proof.
  intros Hsrc. by rewrite loader_run, Hsrc.
Qed.

Lemma loader_drops_rows_on_read_error_witness :
  read_recipients_from_csv MoreExamples.broken_csv "recipients.csv" []
  = (Returns [],
     [Log INFO (LoadedRecipient (PyStr "a@x.com"));
      Log INFO (LoadedRecipient (PyStr "c@x.com"));
      Log ERROR (ErrorReadingCsv UnicodeDecodeError)]).
Proof.
  apply (loader_drops_rows_on_read_error MoreExamples.broken_csv
           "recipients.csv" [Examples.alice; Examples.carol]
           UnicodeDecodeError []).
  reflexivity.
Defined.

(** X5. On every source the loader returns, and every recipient it
    returns has an [email] that is a non-empty string with an ['@']: the
    bulk loop reports such a recipient under that string, never as
    ['Unknown'] or [None]. *)
Theorem loader_returns_addresses env csv_file h :
  ∃ recipients h',
    read_recipients_from_csv env csv_file h = (Returns recipients, h')
    ∧ Forall (λ row, ∃ s, columns row !! "email" = Some (PyStr s)
                          ∧ address row = PyStr s
                          ∧ s ≠ "" ∧ char_in "@" s = true)
             recipients.
Proof.
  rewrite loader_run.
  destruct (csv_file_source env h csv_file) as [e|rows [e|]]; cbn zeta; eauto.
  eexists _, _. split; [done|].
  apply Forall_forall. intros row [Hrow _]%list_elem_of_filter.
  unfold address, get_default, email_excluded in *.
  destruct (columns row !! "email") as [[|s]|]; try tauto.
  exists s. split; [done|]. split; [done|].
  destruct (char_in "@" s); [|tauto].
  split; [|done]. intros ->. tauto.
Qed.

(** ** What a created message holds *)

Lemma only_logs_app t1 t2 : only_logs t1 → only_logs t2 → only_logs (t1 ++ t2).
Proof. apply Forall_app_2. Qed.

Lemma only_logs_schedule t : only_logs t → schedule t = [].
Proof.
  induction 1 as [|ev t Hev _ IH]; [done|]. by destruct ev.
Qed.

Lemma only_logs_printed t : only_logs t → printed t = [].
Proof.
  induction 1 as [|ev t Hev _ IH]; [done|]. by destruct ev.
Qed.

Section Attachments.
Context (env : environment).

(** Each path gives one log record, and a part when the file was found
    and read. *)
Lemma attach_all_trace paths : ∀ msg h,
  ∃ chosen contents t,
    attach_all env msg paths h
    = (Returns (mkMessage (headers msg)
                  (parts msg ++ zip_with attachment_part contents chosen)),
       h ++ t)
    ∧ sublist chosen paths
    ∧ length contents = length chosen
    ∧ length t = length paths
    ∧ only_logs t.
Proof.
  induction paths as [|path paths IH]; intros msg h.
  - exists [], [], []. cbn. rewrite !app_nil_r. destruct msg.
    repeat split; constructor.
  - cbn [attach_all]. io_run. unfold attach_file. io_run.
    destruct (path_exists env h path).
    + destruct (read_bytes env h path) as [content|e].
      * edestruct IH as (chosen & contents & t & -> & Hsub & Hlen & Ht & Hlogs).
        eexists (path :: chosen), (content :: contents), (_ :: t).
        cbn. rewrite <- !app_assoc. split; [done|].
        split; [by constructor|]. split; [lia|]. split; [lia|].
        constructor; [done | exact Hlogs].
      * edestruct IH as (chosen & contents & t & -> & Hsub & Hlen & Ht & Hlogs).
        eexists chosen, contents, (_ :: t).
        cbn. rewrite <- !app_assoc. split; [done|].
        split; [by constructor|]. split; [lia|]. split; [lia|].
        constructor; [done | exact Hlogs].
    + edestruct IH as (chosen & contents & t & -> & Hsub & Hlen & Ht & Hlogs).
      eexists chosen, contents, (_ :: t).
      cbn. rewrite <- !app_assoc. split; [done|].
      split; [by constructor|]. split; [lia|]. split; [lia|].
      constructor; [done | exact Hlogs].
Qed.

End Attachments.

(** [create_email_message] when both templates format and the record has
    an [email]. *)
Lemma create_email_message_success env self recipient subject body_template
    attachments h ps pb to :
  Format.format env subject recipient = Returns ps →
  Format.format env body_template recipient = Returns pb →
  columns recipient !! "email" = Some to →
  ∃ chosen contents t,
    create_email_message env self recipient subject body_template attachments h
    = (Returns (Some (mkMessage
                        [("Content-Type", PyStr "multipart/mixed");
                         ("MIME-Version", PyStr "1.0");
                         ("From", sender_email self);
                         ("To", to);
                         ("Subject", PyStr ps)]
                        (MIMEText pb "plain"
                         :: zip_with attachment_part contents chosen))),
       h ++ t)
    ∧ sublist chosen (default [] attachments)
    ∧ length contents = length chosen
    ∧ length t = length (default [] attachments)
    ∧ only_logs t.
Proof.
  intros Hps Hpb Hto.
  unfold create_email_message, create_email_message_body, getitem. io_run.
  rewrite Hps, Hpb, Hto. io_run.
  destruct attachments as [[|path paths]|].
  - exists [], [], []. cbn. rewrite app_nil_r. repeat split; constructor.
  - match goal with |- context [attach_all env ?m ?l h] =>
      destruct (attach_all_trace env l m h)
        as (chosen & contents & t & -> & Hsub & Hlen & Ht & Hlogs) end.
    by exists chosen, contents, t.
  - exists [], [], []. cbn. rewrite app_nil_r. repeat split; constructor.
Qed.

(** X6. [create_email_message] returns after writing log records only,
    and it returns a message exactly when both templates format and the
    record has an [email], whatever the attachments are.  The message then
    has the headers From (the sender), To (the record's [email]) and
    Subject (the formatted subject) after the two of [MIMEMultipart]; its
    parts are the formatted body, then one part, named by the base name
    of the path, for some of the attachment paths, in their order; every
    path is answered for by one log record.  Otherwise there is one
    error record. *)
Theorem created_message_contents env self recipient subject body_template
    attachments h :
  ∃ result t,
    create_email_message env self recipient subject body_template attachments h
    = (Returns result, h ++ t)
    ∧ only_logs t
    ∧ match result with
      | Some m =>
          ∃ ps pb to chosen contents,
            Format.format env subject recipient = Returns ps
            ∧ Format.format env body_template recipient = Returns pb
            ∧ columns recipient !! "email" = Some to
            ∧ m = mkMessage
                    [("Content-Type", PyStr "multipart/mixed");
                     ("MIME-Version", PyStr "1.0");
                     ("From", sender_email self);
                     ("To", to);
                     ("Subject", PyStr ps)]
                    (MIMEText pb "plain"
                     :: zip_with attachment_part contents chosen)
            ∧ sublist chosen (default [] attachments)
            ∧ length contents = length chosen
            ∧ length t = length (default [] attachments)
      | None =>
          ¬ renders env subject body_template recipient
          ∧ ∃ e, t = [Log ERROR (ErrorCreatingMessage (get recipient "email") e)]
      end.
Proof.
  destruct (Format.format env subject recipient) as [ps|e1] eqn:Hps;
    [destruct (Format.format env body_template recipient) as [pb|e2] eqn:Hpb;
     [destruct (columns recipient !! "email") as [to|] eqn:Hto|]|].
  - destruct (create_email_message_success env self recipient subject
                body_template attachments h ps pb to Hps Hpb Hto)
      as (chosen & contents & t & -> & Hsub & Hlen & Ht & Hlogs).
    eexists _, t. split; [done|]. split; [done|].
    by exists ps, pb, to, chosen, contents.
  - unfold create_email_message, create_email_message_body, getitem. io_run.
    rewrite Hps, Hpb, Hto. eexists None, [_]. split; [done|].
    split; [by repeat constructor|]. split; [|eauto].
    intros (_ & _ & [? ?]). congruence.
  - unfold create_email_message, create_email_message_body, getitem. io_run.
    rewrite Hps, Hpb. eexists None, [_]. split; [done|].
    split; [by repeat constructor|]. split; [|eauto].
    intros (_ & [? ?] & _). congruence.
  - unfold create_email_message, create_email_message_body, getitem. io_run.
    rewrite Hps. eexists None, [_]. split; [done|].
    split; [by repeat constructor|]. split; [|eauto].
    intros ([? ?] & _). congruence.
Qed.

(** ** Personalised text *)

Section Placeholders.
Context (env : environment) (kwargs : gmap string pyval).
Import Format.

Lemma run_literal text : ∀ out rest,
  brace_free text = true →
  run env kwargs Literal out (text +:+ rest)
  = run env kwargs Literal (out +:+ text) rest.
Proof.
  induction text as [|c text IH]; intros out rest Hfree.
  - by rewrite append_nil_r.
  - cbn in Hfree. apply andb_true_iff in Hfree as [Hc Hfree].
    apply negb_true_iff, orb_false_iff in Hc as [Hopen Hclose].
    rewrite append_cons. cbn [run]. unfold step. rewrite Hopen, Hclose.
    rewrite IH by done. unfold snoc. by rewrite append_assoc.
Qed.

Lemma accessors_plain name : plain name = true → accessors name = "".
Proof.
  induction name as [|c name IH]; [done|]. cbn.
  intros [Hc Hname]%andb_true_iff.
  apply negb_true_iff in Hc. repeat (apply orb_false_iff in Hc as [Hc ?]).
  replace (Ascii.eqb c "." || Ascii.eqb c "[") with false
    by (symmetry; apply orb_false_iff; done).
  by apply IH.
Qed.

Lemma render_found name v :
  column_name name → kwargs !! name = Some v →
  render env kwargs name None "" = Returns (str v).
Proof.
  intros [Hplain (c & name' & -> & Hdigit)] Hv. unfold render.
  rewrite first_part_plain, accessors_plain by done.
  rewrite bool_decide_eq_false_2 by done.
  cbn [get_integer]. rewrite Hdigit. by rewrite Hv.
Qed.

Lemma run_placeholder before name after v :
  brace_free before = true → brace_free after = true →
  column_name name → kwargs !! name = Some v →
  run env kwargs Literal "" (before +:+ "{" +:+ name +:+ "}" +:+ after)
  = Returns (before +:+ str v +:+ after).
Proof.
  intros Hbefore Hafter Hname Hv.
  rewrite run_literal by done. change ("" +:+ before) with before.
  pose proof Hname as [Hplain (c & name' & -> & Hdigit)].
  pose proof Hplain as Hc. cbn in Hc. apply andb_true_iff in Hc as [Hc Hname'].
  apply negb_true_iff in Hc. repeat (apply orb_false_iff in Hc as [Hc ?]).
  change ("{" +:+ String c name' +:+ "}" +:+ after)
    with (String "{" (String c (name' +:+ "}" +:+ after))).
  change (run env kwargs Literal before (String "{" ?rest))
    with (run env kwargs Open before rest).
  cbn [run]. unfold step. rewrite Hc.
  repeat match goal with H : Ascii.eqb c _ = false |- _ => rewrite H; clear H end.
  rewrite run_field_name by done. rewrite append_cons.
  change ("" +:+ name') with name'.
  rewrite (render_found _ v Hname Hv).
  replace after with (after +:+ "") at 1 by apply append_nil_r.
  rewrite run_literal by done. cbn. by rewrite append_assoc.
Qed.

End Placeholders.

(** X7. A subject made of literal text around one placeholder [{name}]
    is personalised with the recipient's value for that column, shown as
    [str] shows it (so a cell that the line lacks reads [None]); the
    message is created with that subject. *)
Theorem subject_is_personalised env self recipient before name after
    body_template attachments h v pb to :
  brace_free before = true → brace_free after = true →
  column_name name →
  columns recipient !! name = Some v →
  Format.format env body_template recipient = Returns pb →
  columns recipient !! "email" = Some to →
  ∃ m h',
    create_email_message env self recipient
      (before +:+ "{" +:+ name +:+ "}" +:+ after) body_template attachments h
    = (Returns (Some m), h')
    ∧ headers m !! 4%nat = Some ("Subject", PyStr (before +:+ str v +:+ after)).
Proof.
  intros Hbefore Hafter Hname Hv Hpb Hto.
  assert (Hps : Format.format env (before +:+ "{" +:+ name +:+ "}" +:+ after)
                  recipient = Returns (before +:+ str v +:+ after)).
  { unfold Format.format. by apply run_placeholder. }
  destruct (create_email_message_success env self recipient _ body_template
              attachments h _ pb to Hps Hpb Hto)
    as (chosen & contents & t & -> & _).
  eexists _, _. split; done.
Qed.

Lemma subject_is_personalised_witness :
  ∃ m h',
    create_email_message Examples.quiet Examples.bot MoreExamples.short_line
      ("Dear " +:+ "{" +:+ "name" +:+ "}" +:+ ",") "Hello!" None []
    = (Returns (Some m), h')
    ∧ headers m !! 4%nat = Some ("Subject", PyStr ("Dear " +:+ "None" +:+ ",")).
Proof.
  apply (subject_is_personalised Examples.quiet Examples.bot
           MoreExamples.short_line "Dear " "name" "," "Hello!" None [] PyNone
           "Hello!" (PyStr "s@x.com")); try reflexivity.
  split; [reflexivity|]. by exists "n"%char, "ame".
Defined.

(** ** A batch, event by event *)

Lemma attempts_schedule_app t1 t2 :
  attempts (schedule (t1 ++ t2))
  = attempts (schedule t1) + attempts (schedule t2).
Proof. by rewrite schedule_app, attempts_app. Qed.

Section BulkTrace.
Context (env : environment) (self : EmailSenderBot).
Context (subject body_template : string) (attachments : option (list string)).
Context (delay : number) (n : Z).

Lemma create_email_message_logs recipient h :
  ∃ result t,
    create_email_message env self recipient subject body_template attachments h
    = (Returns result, h ++ t)
    ∧ only_logs t
    ∧ not_msg result = bool_decide (result = None).
Proof.
  destruct (Format.format env subject recipient) as [ps|e1] eqn:Hps;
    [destruct (Format.format env body_template recipient) as [pb|e2] eqn:Hpb;
     [destruct (columns recipient !! "email") as [to|] eqn:Hto|]|].
  - destruct (create_email_message_success env self recipient subject
                body_template attachments h ps pb to Hps Hpb Hto)
      as (chosen & contents & t & -> & _ & _ & _ & Hlogs).
    eexists _, t. split; [done|]. split; [done|].
    reflexivity.
  - unfold create_email_message, create_email_message_body, getitem. io_run.
    rewrite Hps, Hpb, Hto. eexists None, [_]. split; [done|].
    split; [|done]. by repeat constructor.
  - unfold create_email_message, create_email_message_body, getitem. io_run.
    rewrite Hps, Hpb. eexists None, [_]. split; [done|].
    split; [|done]. by repeat constructor.
  - unfold create_email_message, create_email_message_body, getitem. io_run.
    rewrite Hps. eexists None, [_]. split; [done|].
    split; [|done]. by repeat constructor.
Qed.

(** The three attempts of the bulk loop. *)
Lemma retry_three msg recipient_email h :
  ∃ sent t,
    send_email_with_retry env self msg recipient_email 3 h
    = (Returns sent, h ++ t)
    ∧ printed t = []
    ∧ 1 ≤ attempts (schedule t) ≤ 3.
Proof.
  destruct (retry_loop_trace env self msg recipient_email 3 2 0%nat h)
    as (sent & t & k & failed & Hrun & Hk & Hsched & Hprint & _); [done|].
  exists sent, t. split; [exact Hrun|]. split; [done|].
  rewrite Hsched, attempts_app, attempts_bind.
  unfold len. rewrite length_fmap, length_seq.
  change (attempts [Attempt]) with 1. lia.
Qed.

Lemma bulk_body_trace i recipient stats h :
  sleepable delay = true →
  ∃ ok t,
    bulk_body env self subject body_template attachments delay n i
      recipient stats h
    = (Returns (tally stats (recipient, ok)), h ++ t)
    ∧ printed t = [processing_line i n (address recipient)]
    ∧ 0 ≤ attempts (schedule t) ≤ 3.
Proof.
  intros Hdelay. unfold bulk_body. io_run. fold (address recipient).
  destruct (create_email_message_logs recipient
              (h ++ [Print (processing_line i n (address recipient))]))
    as (result & t1 & -> & Hlogs & Hnot).
  pose proof (only_logs_printed _ Hlogs) as Hp1.
  pose proof (only_logs_schedule _ Hlogs) as Hs1.
  destruct result as [m|].
  - rewrite Hnot, bool_decide_eq_false_2 by done.
    destruct (retry_three m (address recipient)
                ((h ++ [Print (processing_line i n (address recipient))]) ++ t1))
      as (sent & t2 & -> & Hp2 & Hs2).
    unfold time_sleep. rewrite Hdelay. io_run.
    assert (Hzero : attempts [] = 0) by done.
    exists sent. destruct (i <? n).
    + exists ([Print (processing_line i n (address recipient))]
              ++ t1 ++ t2 ++ [Sleep delay]).
      split; [unfold tally; cbn; by rewrite <- !app_assoc|].
      rewrite !printed_app, !schedule_app, !attempts_app, Hp1, Hp2, Hs1, Hzero.
      split; [done|].
      change (attempts (schedule [Print _])) with 0.
      change (attempts (schedule [Sleep delay])) with 0 in *. lia.
    + exists ([Print (processing_line i n (address recipient))] ++ t1 ++ t2).
      split; [unfold tally; cbn; by rewrite <- !app_assoc|].
      rewrite !printed_app, !schedule_app, !attempts_app, Hp1, Hp2, Hs1, Hzero.
      split; [done|].
      change (attempts (schedule [Print _])) with 0.
      change (attempts (schedule [Sleep delay])) with 0 in *. lia.
  - exists false, ([Print (processing_line i n (address recipient))] ++ t1).
    split; [by rewrite <- app_assoc|].
    rewrite !printed_app, !schedule_app, !attempts_app, Hp1, Hs1.
    split; done.
Qed.

Lemma bulk_loop_trace remaining : ∀ i stats h,
  sleepable delay = true →
  ∃ stats' t,
    bulk_loop env self subject body_template attachments delay n i
      remaining stats h = (Returns stats', h ++ t)
    ∧ printed t
      = imap (λ k recipient, processing_line (i + Z.of_nat k) n (address recipient))
          remaining
    ∧ 0 ≤ attempts (schedule t) ≤ 3 * len remaining.
Proof.
  induction remaining as [|recipient remaining IH]; intros i stats h Hdelay.
  - exists stats, []. cbn. rewrite app_nil_r. done.
  - cbn [bulk_loop]. io_run.
    destruct (bulk_body_trace i recipient stats h Hdelay)
      as (ok & t1 & -> & Hp1 & Hs1).
    destruct (IH (i + 1) (tally stats (recipient, ok)) (h ++ t1) Hdelay)
      as (stats' & t2 & -> & Hp2 & Hs2).
    exists stats', (t1 ++ t2). rewrite app_assoc. split; [done|].
    rewrite printed_app, attempts_schedule_app, Hp1, Hp2. split.
    + cbn [imap app]. rewrite Z.add_0_r. f_equal.
      apply imap_ext. intros k x _. cbn. f_equal. lia.
    + unfold len in *. cbn [length]. lia.
Qed.

(** One recipient's turn, whatever its outcome. *)
Lemma bulk_body_turn i recipient stats h :
  sleepable delay = true →
  ∃ ok t,
    bulk_body env self subject body_template attachments delay n i
      recipient stats h
    = (Returns (tally stats (recipient, ok)), h ++ t)
    ∧ turn n i recipient t.
Proof.
  intros Hdelay. unfold bulk_body. io_run. fold (address recipient).
  destruct (create_email_message_logs recipient
              (h ++ [Print (processing_line i n (address recipient))]))
    as (result & t1 & -> & Hlogs & Hnot).
  pose proof (only_logs_printed _ Hlogs) as Hp1.
  pose proof (only_logs_schedule _ Hlogs) as Hs1.
  destruct result as [m|].
  - rewrite Hnot, bool_decide_eq_false_2 by done.
    destruct (retry_three m (address recipient)
                ((h ++ [Print (processing_line i n (address recipient))]) ++ t1))
      as (sent & t2 & -> & Hp2 & Hs2).
    unfold time_sleep. rewrite Hdelay. io_run.
    assert (Hzero : attempts [] = 0) by done.
    exists sent. destruct (i <? n).
    + exists (Print (processing_line i n (address recipient))
              :: t1 ++ t2 ++ [Sleep delay]).
      split; [unfold tally; cbn; by rewrite <- !app_assoc|].
      eexists. split; [done|].
      rewrite !printed_app, !schedule_app, !attempts_app, Hp1, Hp2, Hs1, Hzero.
      split; [done|].
      change (attempts (schedule [Sleep delay])) with 0 in *. lia.
    + exists (Print (processing_line i n (address recipient)) :: t1 ++ t2).
      split; [unfold tally; cbn; by rewrite <- !app_assoc|].
      eexists. split; [done|].
      rewrite !printed_app, !schedule_app, !attempts_app, Hp1, Hp2, Hs1, Hzero.
      split; [done|]. lia.
  - exists false, (Print (processing_line i n (address recipient)) :: t1).
    split; [by rewrite <- app_assoc|].
    eexists. split; [done|]. by rewrite Hp1, Hs1.
Qed.

(** A batch is the turns of its recipients, one after the other. *)
Lemma bulk_loop_turns remaining : ∀ i stats h,
  sleepable delay = true →
  ∃ stats' turns,
    bulk_loop env self subject body_template attachments delay n i
      remaining stats h = (Returns stats', h ++ concat turns)
    ∧ length turns = length remaining
    ∧ ∀ k recipient t,
        remaining !! k = Some recipient → turns !! k = Some t →
        turn n (i + Z.of_nat k) recipient t.
Proof.
  induction remaining as [|recipient remaining IH]; intros i stats h Hdelay.
  - exists stats, []. cbn. rewrite app_nil_r. done.
  - cbn [bulk_loop]. io_run.
    destruct (bulk_body_turn i recipient stats h Hdelay)
      as (ok & t1 & -> & Hturn).
    destruct (IH (i + 1) (tally stats (recipient, ok)) (h ++ t1) Hdelay)
      as (stats' & turns & -> & Hlen & Hturns).
    exists stats', (t1 :: turns). cbn [concat length].
    rewrite app_assoc, Hlen. split; [done|]. split; [done|].
    intros [|k] recipient' t' Hr Ht.
    + injection Hr as <-. injection Ht as <-. by rewrite Z.add_0_r.
    + replace (i + Z.of_nat (S k)) with (i + 1 + Z.of_nat k) by lia.
      by apply Hturns.
Qed.

End BulkTrace.

(** X8. Recipients are processed strictly in the order of the list: what
    a batch prints is the three lines of the heading, then one line per
    recipient, numbered from 1, with the recipient's address (['Unknown']
    when it has none); nothing else is printed. *)
Theorem bulk_prints_recipients_in_order env self recipients subject
    body_template attachments delay h :
  sleepable delay = true →
  ∃ stats t,
    send_bulk_emails env self recipients subject body_template attachments
      delay h = (Returns stats, h ++ t)
    ∧ printed t
      = [nl +:+ str_mul "=" 50; "SENDING EMAILS"; str_mul "=" 50]
        ++ imap (λ k recipient,
                   processing_line (1 + Z.of_nat k) (len recipients)
                     (address recipient))
             recipients.
Proof.
  intros Hdelay. unfold send_bulk_emails. io_run.
  match goal with |- context [bulk_loop _ _ _ _ _ _ _ _ _ ?s ?h0] =>
    destruct (bulk_loop_trace env self subject body_template attachments delay
                (len recipients) recipients 1 s h0 Hdelay)
      as (stats & t & -> & Hp & _)
  end.
  eexists stats, (_ :: _ :: _ :: t). split; [by rewrite <- !app_assoc|].
  cbn. by rewrite <- Hp.
Qed.

Lemma bulk_prints_recipients_in_order_witness :
  ∃ stats t,
    send_bulk_emails Examples.quiet Examples.bot
      [Examples.carol; Examples.nameless] "Hi" "Hello" None
      Examples.two_seconds [] = (Returns stats, [] ++ t)
    ∧ printed t
      = [nl +:+ str_mul "=" 50; "SENDING EMAILS"; str_mul "=" 50;
         processing_line 1 2 (PyStr "c@x.com");
         processing_line 2 2 (PyStr "Unknown")].
Proof.
  apply (bulk_prints_recipients_in_order Examples.quiet Examples.bot
           [Examples.carol; Examples.nameless] "Hi" "Hello" None
           Examples.two_seconds []).
  reflexivity.
Defined.

(** X9. A batch opens at most three SMTP sessions for each recipient,
    whatever the mail server answers: after the heading the history of a
    batch is one turn per recipient, in the order of the list, and a turn
    is the recipient's line followed by at most three sessions. *)
Theorem bulk_attempts_are_bounded env self recipients subject body_template
    attachments delay h :
  sleepable delay = true →
  ∃ stats turns,
    send_bulk_emails env self recipients subject body_template attachments
      delay h
    = (Returns stats,
       h ++ [Print (nl +:+ str_mul "=" 50); Print "SENDING EMAILS";
             Print (str_mul "=" 50)]
         ++ concat turns)
    ∧ length turns = length recipients
    ∧ ∀ k recipient t,
        recipients !! k = Some recipient → turns !! k = Some t →
        turn (len recipients) (1 + Z.of_nat k) recipient t.
Proof.
  intros Hdelay. unfold send_bulk_emails. io_run.
  match goal with |- context [bulk_loop _ _ _ _ _ _ _ _ _ ?s ?h0] =>
    destruct (bulk_loop_turns env self subject body_template attachments delay
                (len recipients) recipients 1 s h0 Hdelay)
      as (stats & turns & -> & Hlen & Hturns)
  end.
  exists stats, turns. split; [by rewrite <- !app_assoc|].
  split; [exact Hlen | exact Hturns].
Qed.

Lemma bulk_attempts_are_bounded_witness :
  ∃ stats turns,
    send_bulk_emails (Examples.failing TimeoutError) Examples.bot
      [Examples.alice; Examples.carol] "Hi {name}" "Hello" None
      Examples.two_seconds []
    = (Returns stats,
       [] ++ [Print (nl +:+ str_mul "=" 50); Print "SENDING EMAILS";
              Print (str_mul "=" 50)]
          ++ concat turns)
    ∧ length turns = length [Examples.alice; Examples.carol]
    ∧ ∀ k recipient t,
        [Examples.alice; Examples.carol] !! k = Some recipient →
        turns !! k = Some t →
        turn (len [Examples.alice; Examples.carol]) (1 + Z.of_nat k) recipient t.
Proof.
  apply (bulk_attempts_are_bounded (Examples.failing TimeoutError) Examples.bot
           [Examples.alice; Examples.carol] "Hi {name}" "Hello" None
           Examples.two_seconds []).
  reflexivity.
Defined.

Section BulkPaths.
Context (env : environment) (self : EmailSenderBot).
Context (subject body_template : string) (attachments : option (list string)).
Context (delay : number) (n : Z).

(** One turn for a recipient whose message is created: the line, the log
    records of the creation, the retry operation, then the pause, which
    raises when [time.sleep] does not accept the delay. *)
Lemma bulk_body_rendered i recipient stats h :
  renders env subject body_template recipient →
  ∃ m t1 sent t2,
    let h1 := (h ++ [Print (processing_line i n (address recipient))]) ++ t1 in
    only_logs t1
    ∧ send_email_with_retry env self m (address recipient) 3 h1
      = (Returns sent, h1 ++ t2)
    ∧ printed t2 = []
    ∧ 1 ≤ attempts (schedule t2) ≤ 3
    ∧ ((i <? n) = false ∨ sleepable delay = true →
       bulk_body env self subject body_template attachments delay n i
         recipient stats h
       = (Returns (tally stats (recipient, sent)),
          (h1 ++ t2) ++ (if i <? n then [Sleep delay] else [])))
    ∧ ((i <? n) = true → sleepable delay = false →
       ∃ e, bulk_body env self subject body_template attachments delay n i
              recipient stats h = (Raises e, h1 ++ t2)
            ∧ (e = ValueError ∨ e = OverflowError)).
Proof.
  intros ([ps Hps] & [pb Hpb] & [to Hto]).
  destruct (create_email_message_success env self recipient subject
              body_template attachments
              (h ++ [Print (processing_line i n (address recipient))])
              ps pb to Hps Hpb Hto)
    as (chosen & contents & t1 & Hcreate & _ & _ & _ & Hlogs).
  match type of Hcreate with _ = (Returns (Some ?msg), _) => set (m := msg) in * end.
  destruct (retry_three env self m (address recipient)
              ((h ++ [Print (processing_line i n (address recipient))]) ++ t1))
    as (sent & t2 & Hretry & Hp2 & Hs2).
  exists m, t1, sent, t2. cbn zeta.
  split; [done|]. split; [done|]. split; [done|]. split; [done|].
  assert (Hbody :
            bulk_body env self subject body_template attachments delay n i
              recipient stats h
            = ((if i <? n then time_sleep delay else mret tt)
                 ≫= (λ _, mret (tally stats (recipient, sent))))
                (((h ++ [Print (processing_line i n (address recipient))]) ++ t1)
                 ++ t2)).
  { unfold bulk_body. io_run. fold (address recipient).
    rewrite Hcreate. cbn [not_msg]. rewrite bool_decide_eq_false_2 by done.
    rewrite Hretry. unfold tally. by destruct sent. }
  rewrite Hbody. split.
  - intros Hok. unfold time_sleep. io_run.
    destruct (i <? n); [|by rewrite app_nil_r].
    destruct Hok as [?| ->]; done.
  - intros -> Hbad. unfold time_sleep. rewrite Hbad. io_run.
    destruct delay as [z|[| | |]]; eauto.
Qed.

(** The loop when every session completes and every message is
    created. *)
Lemma bulk_loop_all_sent remaining : ∀ i stats h,
  (∀ h' m, smtp env h' self m = None) →
  sleepable delay = true →
  i + len remaining = n + 1 →
  Forall (renders env subject body_template) remaining →
  ∃ t,
    bulk_loop env self subject body_template attachments delay n i
      remaining stats h
    = (Returns (mkStats (total stats) (success stats + len remaining)
                  (failed stats) (failed_recipients stats)),
       h ++ t)
    ∧ schedule t = deliveries delay (length remaining).
Proof.
  induction remaining as [|recipient remaining IH];
    intros i stats h Hsmtp Hdelay Hi Hall.
  - exists []. rewrite app_nil_r. split; [|done].
    destruct stats. unfold len. cbn [length total success failed failed_recipients].
    change (Z.of_nat 0) with 0. by rewrite Z.add_0_r.
  - apply Forall_cons in Hall as [Hr Hall].
    cbn [bulk_loop]. io_run.
    destruct (bulk_body_rendered i recipient stats h Hr)
      as (m & t1 & sent & t2 & Hlogs & Hretry & _ & _ & Hbody & _).
    cbn zeta in *.
    unfold send_email_with_retry in Hretry.
    change (range 3) with [0; 1; 2] in Hretry.
    rewrite retry_loop_step, Hsmtp in Hretry.
    injection Hretry as <- Ht2%app_inv_head. subst t2.
    rewrite Hbody by (by right).
    unfold len in Hi. cbn [length] in Hi.
    edestruct (IH (i + 1)) as (t & -> & Hsched); [done | done | | done |].
    { unfold len. lia. }
    eexists. split.
    + rewrite <- !app_assoc. unfold tally, count_success, len. cbn.
      do 3 f_equal. lia.
    + match goal with |- schedule (Print _ :: ?l) = _ =>
        change (schedule l = deliveries delay (length (recipient :: remaining)))
      end.
      rewrite schedule_app, (only_logs_schedule _ Hlogs).
      match goal with |- [] ++ schedule (SmtpSession _ _ :: Log _ _ :: ?l) = _ =>
        change (Attempt :: schedule l
                = deliveries delay (length (recipient :: remaining)))
      end.
      rewrite schedule_app, Hsched.
      destruct remaining as [|recipient' remaining].
      * replace (i <? n) with false by (symmetry; apply Z.ltb_ge; cbn in Hi; lia).
        done.
      * replace (i <? n) with true
          by (symmetry; apply Z.ltb_lt; cbn [length] in Hi; lia).
        done.
Qed.

End BulkPaths.

(** X10. When every message is created and every SMTP session completes,
    all the recipients are counted as sent, none as failed, and the batch
    is one session per recipient with a pause of [delay] between two
    recipients and none after the last. *)
Theorem bulk_delivers_to_all env self recipients subject body_template
    attachments delay h :
  (∀ h' m, smtp env h' self m = None) →
  sleepable delay = true →
  Forall (renders env subject body_template) recipients →
  ∃ t,
    send_bulk_emails env self recipients subject body_template attachments
      delay h
    = (Returns (mkStats (len recipients) (len recipients) 0 []), h ++ t)
    ∧ schedule t = deliveries delay (length recipients).
Proof.
  intros Hsmtp Hdelay Hall. unfold send_bulk_emails. io_run.
  match goal with |- context [bulk_loop _ _ _ _ _ _ _ _ _ ?s ?h0] =>
    destruct (bulk_loop_all_sent env self subject body_template attachments
                delay (len recipients) recipients 1 s h0 Hsmtp Hdelay)
      as (t & -> & Hsched); [lia | done |]
  end.
  eexists (_ :: _ :: _ :: t). split; [by rewrite <- !app_assoc|].
  exact Hsched.
Qed.

Lemma bulk_delivers_to_all_witness :
  ∃ t,
    send_bulk_emails Examples.quiet Examples.bot
      [Examples.alice; Examples.carol; Examples.alice] "Hi {name}"
      "Hello {name}!" None Examples.two_seconds []
    = (Returns (mkStats 3 3 0 []), [] ++ t)
    ∧ schedule t
      = [Attempt; Wait Examples.two_seconds; Attempt;
         Wait Examples.two_seconds; Attempt].
Proof.
  apply (bulk_delivers_to_all Examples.quiet Examples.bot
           [Examples.alice; Examples.carol; Examples.alice] "Hi {name}"
           "Hello {name}!" None Examples.two_seconds []).
  - reflexivity.
  - reflexivity.
  - repeat constructor; eexists; reflexivity.
Defined.

(** X11. With a delay that [time.sleep] refuses (negative, NaN or
    infinite) and at least two recipients, the batch ends in an exception
    at the first pause: when the first recipient's message is created, it
    is the only recipient processed, its delivery is attempted, and no
    statistics are returned. *)
Theorem bulk_aborts_on_bad_delay env self first second others subject
    body_template attachments delay h :
  sleepable delay = false →
  renders env subject body_template first →
  ∃ e t,
    send_bulk_emails env self (first :: second :: others) subject
      body_template attachments delay h = (Raises e, h ++ t)
    ∧ (e = ValueError ∨ e = OverflowError)
    ∧ printed t
      = [nl +:+ str_mul "=" 50; "SENDING EMAILS"; str_mul "=" 50;
         processing_line 1 (len (first :: second :: others)) (address first)]
    ∧ 1 ≤ attempts (schedule t) ≤ 3.
Proof.
  intros Hdelay Hfirst. unfold send_bulk_emails. io_run. cbn [bulk_loop]. io_run.
  match goal with |- context [bulk_body _ _ _ _ _ _ ?n ?i _ ?s ?h0] =>
    destruct (bulk_body_rendered env self subject body_template attachments
                delay n i first s h0 Hfirst)
      as (m & t1 & sent & t2 & Hlogs & _ & Hp2 & Hs2 & _ & Hbody)
  end.
  destruct Hbody as (e & -> & He); [|done|].
  { apply Z.ltb_lt. unfold len. cbn [length]. lia. }
  exists e. eexists (_ :: _ :: _ :: _ :: t1 ++ t2).
  split; [by rewrite <- !app_assoc|]. split; [done|].
  change (printed (Print ?a :: Print ?b :: Print ?c :: Print ?d :: t1 ++ t2))
    with (a :: b :: c :: d :: printed (t1 ++ t2)).
  change (schedule (Print ?a :: Print ?b :: Print ?c :: Print ?d :: t1 ++ t2))
    with (schedule (t1 ++ t2)).
  rewrite printed_app, schedule_app, attempts_app, Hp2,
    (only_logs_printed _ Hlogs), (only_logs_schedule _ Hlogs).
  split; [done|]. change (attempts []) with 0. lia.
Qed.

Lemma bulk_aborts_on_bad_delay_witness :
  ∃ e t,
    send_bulk_emails Examples.quiet Examples.bot
      [Examples.alice; Examples.carol] "Hi {name}" "Hello {name}!" None
      (Int (-1)) [] = (Raises e, [] ++ t)
    ∧ (e = ValueError ∨ e = OverflowError)
    ∧ printed t
      = [nl +:+ str_mul "=" 50; "SENDING EMAILS"; str_mul "=" 50;
         processing_line 1 2 (PyStr "a@x.com")]
    ∧ 1 ≤ attempts (schedule t) ≤ 3.
Proof.
  apply (bulk_aborts_on_bad_delay Examples.quiet Examples.bot Examples.alice
           Examples.carol [] "Hi {name}" "Hello {name}!" None (Int (-1)) []).
  - reflexivity.
  - repeat split; eexists; reflexivity.
Defined.

(** ** The report of a batch *)

Lemma sent_count_bounds outcomes : 0 ≤ sent_count outcomes ≤ len outcomes.
Proof.
  unfold sent_count, len, Zsum.
  induction outcomes as [|[] outcomes IH]; cbn [fmap list_fmap foldr length] in *; lia.
Qed.

Lemma success_rate_line_returns stats :
  total stats ≤ 0 ∨ 0 ≤ success stats ≤ total stats →
  ∃ line, success_rate_line stats = Returns line.
Proof.
  intros Hstats. unfold success_rate_line, success_rate.
  destruct (Z.ltb_spec 0 (total stats)) as [Hpos|Hneg]; [|eauto].
  destruct Hstats as [?|Hstats]; [lia|].
  destruct (truediv_returns (success stats) (total stats) Hstats Hpos)
    as (q & -> & _).
  eauto.
Qed.



(** X13. The statistics of any batch can be reported: after
    [send_bulk_emails], [generate_report] returns, for every mail server,
    file system and list of recipients. *)
Theorem batch_is_always_reported env self recipients subject body_template
    attachments delay output_file h :
  sleepable delay = true →
  ∃ stats h1 h2,
    send_bulk_emails env self recipients subject body_template attachments
      delay h = (Returns stats, h1)
    ∧ 0 ≤ success stats ≤ total stats
    ∧ generate_report env stats output_file h1 = (Returns tt, h2).
Proof.
  intros Hdelay. unfold send_bulk_emails. io_run.
  match goal with |- context [bulk_loop _ _ _ _ _ _ _ _ _ ?s ?h0] =>
    destruct (bulk_loop_run env self subject body_template attachments delay
                (len recipients) recipients 1 s h0 Hdelay)
      as (outcomes & t & -> & Hlen);
    pose proof (tally_all (zip recipients outcomes) s) as (Ht & Hs & _ & _)
  end.
  cbn in Ht, Hs. rewrite snd_zip in Hs by lia.
  pose proof (sent_count_bounds outcomes) as Hbounds.
  assert (Hstats : 0 ≤ success (foldl tally (mkStats (len recipients) 0 0 [])
                                  (zip recipients outcomes))
                   ≤ total (foldl tally (mkStats (len recipients) 0 0 [])
                              (zip recipients outcomes))).
  { rewrite Ht, Hs. unfold len in *. lia. }
  destruct (success_rate_line_returns _ (or_intror Hstats)) as [line Hline].
  match goal with |- ∃ _ _ _, (_, ?h1) = _ ∧ _ =>
    destruct (generate_report_run env _ output_file h1 line Hline)
      as (report & t' & Hrun & _)
  end.
  eexists _, _, _. split; [reflexivity|]. split; [done|]. exact Hrun.
Qed.

Lemma batch_is_always_reported_witness :
  ∃ stats h1 h2,
    send_bulk_emails (Examples.failing SMTPSenderRefused) Examples.bot
      [Examples.alice] "Hi {name}" "Hello" None Examples.two_seconds []
    = (Returns stats, h1)
    ∧ 0 ≤ success stats ≤ total stats
    ∧ generate_report (Examples.failing SMTPSenderRefused) stats None h1
      = (Returns tt, h2).
Proof.
  apply (batch_is_always_reported (Examples.failing SMTPSenderRefused)
           Examples.bot [Examples.alice] "Hi {name}" "Hello" None
           Examples.two_seconds None []).
  reflexivity.
Defined.

(** ** The interactive program *)

(** X14. The body of the message is what the user types up to two empty
    lines in a row: when the lines typed are a body without two empty
    lines in a row and without an empty last line, followed by two empty
    lines, the loop returns that body and leaves what was typed after
    them. *)
Theorem body_ends_at_two_empty_lines body rest p :
  clean false body = true →
  read_body (body ++ [""; ""] ++ rest) p []
  = (Returns body,
     mkConsole rest (p ++ (Asked "" <$> body ++ [""; ""]))).
Proof.
  intros Hclean.
  assert (Hgen : ∀ xs acc q,
            clean (bool_decide (last acc = Some "")) xs = true →
            read_body (xs ++ [""; ""] ++ rest) q acc
            = (Returns (acc ++ xs),
               mkConsole rest (q ++ (Asked "" <$> xs ++ [""; ""])))).
  { induction xs as [|x xs IH]; intros acc q Hxs.
    - cbn in Hxs. apply negb_true_iff in Hxs.
      assert (H2 : bool_decide (acc ++ [""] ≠ []) = true)
        by (apply bool_decide_eq_true_2; by destruct acc).
      assert (H3 : bool_decide (last (acc ++ [""]) = Some "") = true)
        by (apply bool_decide_eq_true_2; apply last_snoc).
      cbn [app read_body]. rewrite Hxs, andb_false_r.
      cbn [read_body]. rewrite H2, H3.
      rewrite (bool_decide_eq_true_2 ("" = "")) by done. cbn [andb].
      rewrite removelast_last, app_nil_r, <- app_assoc. done.
    - cbn [clean] in Hxs. cbn [app read_body].
      destruct (bool_decide (x = "")) eqn:Hx.
      + apply andb_true_iff in Hxs as [Hacc Hxs].
        apply negb_true_iff in Hacc. rewrite Hacc, andb_false_r.
        rewrite IH.
        * rewrite <- !app_assoc. done.
        * rewrite last_snoc. apply bool_decide_eq_true_1 in Hx. subst x.
          by rewrite bool_decide_eq_true_2.
      + cbn [andb]. rewrite IH.
        * rewrite <- !app_assoc. done.
        * rewrite last_snoc. apply bool_decide_eq_false_1 in Hx.
          rewrite bool_decide_eq_false_2 by congruence. done. }
  apply (Hgen body [] p). done.
Qed.

Lemma body_ends_at_two_empty_lines_witness :
  read_body (["Dear {name},"; ""; "see you."] ++ [""; ""] ++ ["n"]) [] []
  = (Returns ["Dear {name},"; ""; "see you."],
     mkConsole ["n"]
       ([] ++ (Asked "" <$> ["Dear {name},"; ""; "see you."] ++ [""; ""]))).
Proof.
  apply (body_ends_at_two_empty_lines ["Dear {name},"; ""; "see you."] ["n"] []).
  reflexivity.
Defined.

Lemma run_io_run {A} (m : IO A) c r t :
  m (core (past c)) = (r, core (past c) ++ t) →
  run_io m c = (r, mkConsole (typed c) (past c ++ (Did <$> t))).
Proof.
  intros Hm. unfold run_io. cbn zeta. rewrite Hm.
  by rewrite drop_app_length.
Qed.

Section Growth.
Context (world : desk) (P : console_event → Prop).
Context (HP : ∀ ce, no_session ce → P ce).

Lemma grows_ret {A} (a : A) : grows P (mret a : Console A).
Proof.
  intros c r c' [= <- <-]. exists []. by rewrite app_nil_r.
Qed.

Lemma grows_bind {A B} (m : Console A) (f : A → Console B) :
  grows P m → (∀ a, grows P (f a)) → grows P (m ≫= f).
Proof.
  intros Hm Hf c r c' Hrun.
  unfold mbind, Console_bind, console_bind in Hrun.
  destruct (m c) as [[a|e] c1] eqn:Hmc.
  - destruct (Hm _ _ _ Hmc) as (t1 & Hp1 & Ht1).
    destruct (Hf a _ _ _ Hrun) as (t2 & Hp2 & Ht2).
    exists (t1 ++ t2). rewrite Hp2, Hp1, app_assoc.
    split; [done|]. by apply Forall_app_2.
  - injection Hrun as <- <-. by apply Hm in Hmc.
Qed.

Lemma grows_ask {A} (q : console → A) :
  grows P (fun c => (Returns (q c), c)).
Proof.
  intros c r c' [= <- <-]. exists []. by rewrite app_nil_r.
Qed.

Lemma grows_record ce : no_session ce → grows P (record ce).
Proof.
  intros Hce c r c' [= <- <-]. exists [ce]. split; [done|].
  constructor; [by apply HP | constructor].
Qed.

Lemma grows_say text : grows P (say text).
Proof.
  intros c r c'. unfold say.
  rewrite (run_io_run (print text) c (Returns tt) [Print text]) by done.
  intros [= <- <-]. eexists. split; [done|].
  constructor; [by apply HP | constructor].
Qed.

Lemma grows_input prompt : grows P (input prompt).
Proof.
  intros c r c'. unfold input. destruct (typed c) as [|line rest].
  - intros [= <- <-]. exists []. by rewrite app_nil_r.
  - intros [= <- <-]. eexists. split; [done|].
    constructor; [by apply HP | constructor].
Qed.

Lemma grows_getpass prompt : grows P (getpass prompt).
Proof.
  intros c r c'. unfold getpass. destruct (typed c) as [|line rest].
  - intros [= <- <-]. exists []. by rewrite app_nil_r.
  - intros [= <- <-]. eexists. split; [done|].
    constructor; [by apply HP | constructor].
Qed.

(** A method whose events are all of one kind, run from the program. *)
Lemma grows_run_io {A} (m : IO A) :
  (∀ h, ∃ r t, m h = (r, h ++ t) ∧ Forall (λ ev, P (Did ev)) t) →
  grows P (run_io m).
Proof.
  intros Hm c r c'. destruct (Hm (core (past c))) as (r0 & t & Hrun & Ht).
  rewrite (run_io_run m c r0 t Hrun). intros [= <- <-].
  eexists. split; [done|]. by apply Forall_fmap.
Qed.

Lemma grows_init : grows P (init world).
Proof.
  intros c r c'. unfold init, setup_logging, mbind, Console_bind, console_bind.
  destruct (log_setup world (past c)); intros [= <- <-];
    exists []; by rewrite app_nil_r.
Qed.

Lemma grows_test_connection self : grows P (test_connection world self).
Proof.
  intros c r c'. unfold test_connection.
  destruct (login world (past c) self) as [e|]; intros [= <- <-]; cbn.
  - eexists [_; _]. rewrite <- app_assoc. split; [done|].
    repeat constructor; by apply HP.
  - eexists [_]. split; [done|]. repeat constructor; by apply HP.
Qed.

Lemma grows_authenticate self : grows P (authenticate world self).
Proof.
  unfold authenticate.
  repeat (apply grows_bind; [first [apply grows_say | apply grows_input
                                   | apply grows_getpass
                                   | apply grows_test_connection]|intros ?]).
  match goal with |- grows _ (if ?b then _ else _) => destruct b end;
    repeat (apply grows_bind; [first [apply grows_say
                                     | by apply grows_record]|intros ?]);
    apply grows_ret.
Qed.

Lemma grows_read_body lines : ∀ p body_lines r c',
  read_body lines p body_lines = (r, c') →
  ∃ t, past c' = p ++ t ∧ Forall P t.
Proof.
  induction lines as [|line lines IH]; intros p body_lines r c'; cbn [read_body].
  - intros [= <- <-]. exists []. by rewrite app_nil_r.
  - destruct (_ && _).
    + intros [= <- <-]. eexists. split; [done|].
      constructor; [by apply HP | constructor].
    + intros Hrun. apply IH in Hrun as (t & -> & Ht).
      eexists. rewrite <- app_assoc. split; [done|].
      constructor; [by apply HP | done].
Qed.

Lemma grows_read_attachments lines : ∀ p attachments r c',
  read_attachments world lines p attachments = (r, c') →
  ∃ t, past c' = p ++ t ∧ Forall P t.
Proof.
  induction lines as [|line lines IH]; intros p attachments r c';
    cbn [read_attachments].
  - intros [= <- <-]. exists []. by rewrite app_nil_r.
  - destruct (bool_decide _).
    + intros [= <- <-]. eexists. split; [done|].
      constructor; [by apply HP | constructor].
    + destruct (path_exists _ _ _); intros Hrun;
        apply IH in Hrun as (t & -> & Ht);
        eexists; rewrite <- !app_assoc; (split; [done|]);
        repeat (constructor; [by apply HP|]); done.
Qed.

(** The loader writes log records only. *)
Lemma loader_only_logs csv_file h :
  ∃ r t, read_recipients_from_csv (desk_env world) csv_file h = (r, h ++ t)
         ∧ Forall (λ ev, P (Did ev)) t.
Proof.
  rewrite loader_run.
  assert (Hrows : ∀ rows i,
            Forall (λ ev, P (Did ev))
              (imap (λ k row, row_record (i + Z.of_nat k) row) rows)).
  { induction rows as [|row rows IH]; intros i; [constructor|].
    cbn [imap]. constructor.
    - apply HP. unfold row_record. by repeat case_match.
    - rewrite (imap_ext _ (λ k row, row_record (i + 1 + Z.of_nat k) row)).
      + apply IH.
      + intros k x _. cbn. f_equal. lia. }
  destruct (csv_file_source _ h csv_file) as [e|rows [e|]]; cbn zeta.
  - eexists _, [_]. split; [done|]. repeat constructor. by apply HP.
  - eexists _, _. split; [done|]. apply Forall_app_2; [apply Hrows|].
    repeat constructor. by apply HP.
  - eexists _, _. split; [done|]. apply Forall_app_2; [apply Hrows|].
    repeat constructor. by apply HP.
Qed.

Lemma grows_main_gather bot : grows P (main_gather world bot).
Proof.
  unfold main_gather.
  apply grows_bind; [apply grows_input|intros answer].
  apply grows_bind; [apply grows_ask|intros found].
  destruct found; cbn [negb].
  2: { apply grows_bind; [apply grows_say|intros ?]. apply grows_ret. }
  apply grows_bind; [apply grows_run_io, loader_only_logs|intros recipients].
  destruct recipients as [|first others].
  { apply grows_bind; [apply grows_say|intros ?]. apply grows_ret. }
  repeat (apply grows_bind; [first [apply grows_say | apply grows_input]|intros ?]).
  apply grows_bind.
  { intros c r c'. apply grows_read_body. }
  intros body_lines.
  apply grows_bind; [apply grows_input|intros ?].
  apply grows_bind.
  { destruct (bool_decide _); [|apply grows_ret].
    intros c r c'. apply grows_read_attachments. }
  intros attachments.
  repeat (apply grows_bind; [apply grows_say|intros ?]).
  apply grows_ret.
Qed.

Lemma grows_main_prepare : grows P (main_prepare world).
Proof.
  unfold main_prepare.
  repeat (apply grows_bind; [apply grows_say|intros ?]).
  apply grows_bind; [apply grows_init|intros bot0].
  apply grows_bind; [apply grows_authenticate|intros [ok bot]].
  destruct ok; cbn [negb]; [apply grows_main_gather|].
  apply grows_bind; [apply grows_say|intros ?]. apply grows_ret.
Qed.

End Growth.

Lemma say_run text c :
  say text c = (Returns tt, mkConsole (typed c) (past c ++ [Did (Print text)])).
Proof. unfold say. by rewrite (run_io_run (print text) c (Returns tt) [Print text]). Qed.

Lemma console_bind_run {A B} (m : Console A) (f : A → Console B) c a c1 :
  m c = (Returns a, c1) → (m ≫= f) c = f a c1.
Proof.
  intros Hm. unfold mbind, Console_bind, console_bind. by rewrite Hm.
Qed.

Lemma input_run prompt line rest p :
  input prompt (mkConsole (line :: rest) p)
  = (Returns line, mkConsole rest (p ++ [Asked prompt line])).
Proof. reflexivity. Qed.

Lemma getpass_run prompt line rest p :
  getpass prompt (mkConsole (line :: rest) p)
  = (Returns line, mkConsole rest (p ++ [AskedSecret prompt line])).
Proof. reflexivity. Qed.

(** A batch returns its statistics, which count every recipient once. *)
Lemma send_bulk_emails_run env self recipients subject body_template
    attachments delay h :
  sleepable delay = true →
  ∃ stats t,
    send_bulk_emails env self recipients subject body_template attachments
      delay h = (Returns stats, h ++ t)
    ∧ total stats = len recipients
    ∧ 0 ≤ success stats ∧ 0 ≤ failed stats
    ∧ success stats + failed stats = total stats.
Proof.
  intros Hdelay. unfold send_bulk_emails. io_run.
  match goal with |- context [bulk_loop _ _ _ _ _ _ _ _ _ ?s ?h0] =>
    destruct (bulk_loop_run env self subject body_template attachments delay
                (len recipients) recipients 1 s h0 Hdelay)
      as (outcomes & t & -> & Hlen);
    pose proof (tally_all (zip recipients outcomes) s) as (Ht & Hs & Hf & _)
  end.
  cbn in Ht, Hs, Hf. rewrite snd_zip in Hs, Hf by lia.
  pose proof (sent_count_bounds outcomes) as Hbounds.
  eexists _, _. rewrite <- !app_assoc. split; [reflexivity|].
  rewrite Ht, Hs, Hf. unfold len in *. rewrite length_zip. lia.
Qed.

(** The first six lines of a report. *)
Lemma generate_report_counts env stats output_file h line :
  success_rate_line stats = Returns line →
  ∃ report t,
    generate_report env stats output_file h
    = (Returns tt, h ++ Print (join nl report) :: t)
    ∧ take 6 report
      = [nl +:+ str_mul "=" 50;
         "EMAIL SEND REPORT";
         str_mul "=" 50;
         "Total Recipients: " +:+ pretty (total stats);
         "Successfully Sent: " +:+ pretty (success stats);
         "Failed: " +:+ pretty (failed stats)].
Proof.
  intros Hline. unfold generate_report. io_run. rewrite Hline.
  set (report := match failed_recipients stats with [] => _ | _ => _ end).
  assert (Hreport : take 6 report = [nl +:+ str_mul "=" 50;
         "EMAIL SEND REPORT";
         str_mul "=" 50;
         "Total Recipients: " +:+ pretty (total stats);
         "Successfully Sent: " +:+ pretty (success stats);
         "Failed: " +:+ pretty (failed stats)])
    by (unfold report; by destruct (failed_recipients stats)).
  exists report.
  destruct output_file as [[|c path]|];
    [by exists []| |by exists []].
  unfold write_file.
  destruct (write_text env (h ++ [Print (join nl report)]) (String c path)
              (join nl report)) as [e|];
    rewrite <- ?app_assoc; eauto.
Qed.

(** X15. From the last question on, once the user has answered [y] the
    program runs to its end whatever the mail server and the file system
    do: it returns, reads nothing more of what is typed, prints a report
    whose counts cover every recipient loaded, and ends with its closing
    lines. *)
Theorem confirmed_campaign_is_reported world job answer rest p :
  strip world (lower world answer) = "y" →
  ∃ sent failures report before after,
    main_send world job (mkConsole (answer :: rest) p)
    = (Returns tt,
       mkConsole rest
         (p ++ Asked (nl +:+ "Are you ready to send? (y/n): ") answer
            :: before ++ Did (Print (join nl report)) :: after
            ++ [Did (Print (nl +:+ str_mul "=" 50));
                Did (Print "PROJECT COMPLETED SUCCESSFULLY!");
                Did (Print (str_mul "=" 50))]))
    ∧ take 6 report
      = [nl +:+ str_mul "=" 50;
         "EMAIL SEND REPORT";
         str_mul "=" 50;
         "Total Recipients: " +:+ pretty (len (campaign_recipients job));
         "Successfully Sent: " +:+ pretty sent;
         "Failed: " +:+ pretty failures]
    ∧ 0 ≤ sent ∧ 0 ≤ failures
    ∧ sent + failures = len (campaign_recipients job).
Proof.
  intros Hy. unfold main_send.
  rewrite (console_bind_run _ _ _ answer
             (mkConsole rest (p ++ [Asked (nl +:+ "Are you ready to send? (y/n): ")
                                      answer]))) by done.
  cbn zeta. rewrite Hy. cbn [negb].
  rewrite (bool_decide_eq_true_2 ("y" = "y")) by done. cbn [negb].
  set (c1 := mkConsole rest _).
  set (attachments := match campaign_attachments job with [] => None | _ => _ end).
  destruct (send_bulk_emails_run (desk_env world) (campaign_bot job)
              (campaign_recipients job) (campaign_subject job)
              (campaign_body job) attachments main_delay (core (past c1)) eq_refl)
    as (stats & t1 & Hbulk & Htotal & Hsent & Hfailed & Hsum).
  rewrite (console_bind_run _ _ _ _ _ (run_io_run _ c1 _ _ Hbulk)).
  set (c2 := mkConsole _ _).
  rewrite (console_bind_run _ _ c2 (now world (past c2)) c2) by done.
  cbn zeta.
  destruct (success_rate_line_returns stats) as [line Hline]; [right; lia|].
  destruct (generate_report_counts (desk_env world) stats
              (Some ("email_report_" +:+ now world (past c2) +:+ ".txt"))
              (core (past c2)) line Hline)
    as (report & t2 & Hreport & Hlines).
  rewrite (console_bind_run _ _ _ _ _ (run_io_run _ c2 _ _ Hreport)).
  rewrite (console_bind_run _ _ _ _ _ (say_run _ _)).
  rewrite (console_bind_run _ _ _ _ _ (say_run _ _)).
  rewrite say_run.
  exists (success stats), (failed stats), report, (Did <$> t1), (Did <$> t2).
  split.
  - unfold c2, c1. cbn [typed past]. rewrite fmap_cons.
    by rewrite <- !app_assoc.
  - rewrite Hlines, Htotal. repeat split; try done. by rewrite Hsum.
Qed.

Lemma confirmed_campaign_is_reported_witness :
  ∃ sent failures report before after,
    main_send (MoreExamples.office [Examples.alice])
      (mkCampaign Examples.bot [Examples.alice] "Hi {name}" "Hello" [])
      (mkConsole [" Y "; "later"] [])
    = (Returns tt,
       mkConsole ["later"]
         ([] ++ Asked (nl +:+ "Are you ready to send? (y/n): ") " Y "
            :: before ++ Did (Print (join nl report)) :: after
            ++ [Did (Print (nl +:+ str_mul "=" 50));
                Did (Print "PROJECT COMPLETED SUCCESSFULLY!");
                Did (Print (str_mul "=" 50))]))
    ∧ take 6 report
      = [nl +:+ str_mul "=" 50;
         "EMAIL SEND REPORT";
         str_mul "=" 50;
         "Total Recipients: " +:+ pretty (len [Examples.alice]);
         "Successfully Sent: " +:+ pretty sent;
         "Failed: " +:+ pretty failures]
    ∧ 0 ≤ sent ∧ 0 ≤ failures
    ∧ sent + failures = len [Examples.alice].
Proof.
  apply (confirmed_campaign_is_reported (MoreExamples.office [Examples.alice])
           (mkCampaign Examples.bot [Examples.alice] "Hi {name}" "Hello" [])
           " Y " ["later"] []).
  reflexivity.
Defined.

Section Safety.
Context (world : desk).

Let anything : console_event → Prop := λ _, True.

Lemma grows_anything {A} (m : IO A) :
  (∀ h, ∃ r t, m h = (r, h ++ t)) → grows anything (run_io m).
Proof.
  intros Hm. apply grows_run_io. intros h.
  destruct (Hm h) as (r & t & Hrun). exists r, t. split; [done|].
  by apply Forall_forall.
Qed.

(** What [main_send] adds to the history: nothing when nothing is typed,
    else the question and, unless the answer is a [y], one line printed. *)
Lemma main_send_cases job c r c' :
  main_send world job c = (r, c') →
  past c' = past c
  ∨ ∃ answer t,
      past c'
      = past c ++ Asked (nl +:+ "Are you ready to send? (y/n): ") answer :: t
      ∧ (strip world (lower world answer) = "y" ∨ Forall no_session t).
Proof.
  unfold main_send. intros Hrun.
  unfold mbind at 1, Console_bind, console_bind at 1 in Hrun.
  unfold input in Hrun. destruct (typed c) as [|answer rest].
  { injection Hrun as <- <-. by left. }
  right. exists answer. cbn zeta in Hrun.
  destruct (bool_decide (strip world (lower world answer) = "y")) eqn:Hy; cbn [negb] in Hrun.
  - apply bool_decide_eq_true_1 in Hy.
    assert (Hgrows : ∀ x, grows anything x → ∀ c0, x c0 = (r, c') →
              ∃ t, past c' = past c0 ++ t) by
      (intros x Hx c0 Hc0; destruct (Hx _ _ _ Hc0) as (t & ? & _); eauto).
    eapply Hgrows in Hrun as [t Ht].
    + cbn [past] in Ht. rewrite <- app_assoc in Ht. eauto.
    + apply grows_bind; [|intros stats].
      { apply grows_anything. intros h.
        destruct (send_bulk_emails_run (desk_env world) (campaign_bot job)
                    (campaign_recipients job) (campaign_subject job)
                    (campaign_body job)
                    (match campaign_attachments job with
                     | [] => None
                     | _ :: _ => Some (campaign_attachments job)
                     end) main_delay h eq_refl) as (stats & t & Hb & _).
        eauto. }
      apply grows_bind; [apply grows_ask|intros stamp].
      apply grows_bind; [|intros ?].
      { apply grows_anything. intros h.
        destruct (success_rate_line stats) as [line|e] eqn:Hline.
        - destruct (generate_report_run (desk_env world) stats
                      (Some ("email_report_" +:+ stamp +:+ ".txt")) h line Hline)
            as (report & t & Hg & _). eauto.
        - exists (Raises e), [].
          rewrite app_nil_r. by apply generate_report_raises. }
      repeat (apply grows_bind;
                [apply (grows_say anything (λ _ _, I))|intros ?]).
      apply (grows_say anything (λ _ _, I)).
  - rewrite say_run in Hrun. injection Hrun as <- <-. cbn [past].
    eexists. rewrite <- app_assoc. split; [done|]. right.
    by repeat constructor.
Qed.

(** A successful [authenticate] leaves its log record. *)
Lemma authenticate_true self c bot c' :
  authenticate world self c = (Returns (true, bot), c') →
  ∃ sender, AuthLog INFO (Authenticated sender) ∈ past c'.
Proof.
  unfold authenticate.
  rewrite !(console_bind_run _ _ _ _ _ (say_run _ _)).
  unfold mbind at 1, Console_bind, console_bind at 1, input.
  cbn [typed past]. destruct (typed c) as [|answer rest]; [done|].
  cbn zeta.
  rewrite !(console_bind_run _ _ _ _ _ (say_run _ _)).
  unfold mbind at 1, Console_bind, console_bind at 1, getpass.
  cbn [typed past]. destruct rest as [|secret rest]; [done|].
  unfold mbind at 1, Console_bind, console_bind at 1, test_connection.
  cbn [typed past]. destruct (login world _ _) as [e|].
  - unfold record, mbind, Console_bind, console_bind, mret, Console_ret,
      console_ret. done.
  - rewrite (console_bind_run (record _) _ _ tt _ eq_refl).
    rewrite (console_bind_run _ _ _ _ _ (say_run _ _)).
    intros [= <- <-]. exists (strip world answer). cbn [past].
    rewrite !elem_of_app, !list_elem_of_singleton. eauto.
Qed.

(** A campaign is prepared under a successful authentication only. *)
Lemma main_prepare_authenticated c job c' :
  main_prepare world c = (Returns (Some job), c') →
  ∃ sender, AuthLog INFO (Authenticated sender) ∈ past c'.
Proof.
  unfold main_prepare.
  rewrite !(console_bind_run _ _ _ _ _ (say_run _ _)).
  unfold mbind at 1, Console_bind, console_bind at 1.
  destruct (init _ _) as [[bot0|e0] c0]; [|done].
  unfold mbind at 1, Console_bind, console_bind at 1.
  destruct (authenticate _ _ _) as [[[ok bot]|e] c1] eqn:Hauth; [|done].
  destruct ok; cbn [negb].
  - apply authenticate_true in Hauth as [sender Hsender].
    intros Hrun.
    destruct (grows_main_gather world anything (λ _ _, I) bot _ _ _ Hrun)
      as (t & -> & _).
    exists sender. apply elem_of_app. by left.
  - rewrite (console_bind_run _ _ _ _ _ (say_run _ _)). done.
Qed.

(** X16. The program hands no message to the mail server before the user
    has confirmed: in a run of [main] that opened a session for a message,
    every such session comes after the question [Are you ready to send?]
    answered by a [y] (in either case, white space around it aside), and
    after the record of a successful authentication. *)
Theorem main_sends_after_confirmation c r c' :
  Forall no_session (past c) →
  main world c = (r, c') →
  ¬ Forall no_session (past c') →
  ∃ before answer after sender,
    past c'
    = before ++ Asked (nl +:+ "Are you ready to send? (y/n): ") answer :: after
    ∧ Forall no_session before
    ∧ strip world (lower world answer) = "y"
    ∧ AuthLog INFO (Authenticated sender) ∈ before.
Proof.
  intros Hpast Hrun Hsession. unfold main in Hrun.
  unfold mbind, Console_bind, console_bind in Hrun.
  destruct (main_prepare world c) as [[[job|]|e] c1] eqn:Hprepare.
  - destruct (grows_main_prepare world no_session (λ _ H, H) _ _ _ Hprepare)
      as (t1 & Hc1 & Ht1).
    assert (Hbefore : Forall no_session (past c1))
      by (rewrite Hc1; by apply Forall_app_2).
    destruct (main_prepare_authenticated _ _ _ Hprepare) as [sender Hsender].
    destruct (main_send_cases _ _ _ _ Hrun)
      as [Hsame|(answer & t & Hc' & [Hy|Ht])].
    + by rewrite Hsame in Hsession.
    + by exists (past c1), answer, t, sender.
    + destruct Hsession. rewrite Hc'.
      apply Forall_app_2; [done|]. by constructor.
  - injection Hrun as <- <-. destruct Hsession.
    destruct (grows_main_prepare world no_session (λ _ H, H) _ _ _ Hprepare)
      as (t1 & -> & Ht1).
    by apply Forall_app_2.
  - injection Hrun as <- <-. destruct Hsession.
    destruct (grows_main_prepare world no_session (λ _ H, H) _ _ _ Hprepare)
      as (t1 & -> & Ht1).
    by apply Forall_app_2.
Qed.

End Safety.

Lemma main_sends_after_confirmation_witness :
  ∃ before answer after sender,
    past (main (MoreExamples.office [Examples.alice])
            (mkConsole (MoreExamples.session " Y ") [])).2
    = before ++ Asked (nl +:+ "Are you ready to send? (y/n): ") answer :: after
    ∧ Forall no_session before
    ∧ ascii_strip (ascii_lower answer) = "y"
    ∧ AuthLog INFO (Authenticated sender) ∈ before.
Proof.
  apply (main_sends_after_confirmation (MoreExamples.office [Examples.alice])
           (mkConsole (MoreExamples.session " Y ") [])
           (main (MoreExamples.office [Examples.alice])
              (mkConsole (MoreExamples.session " Y ") [])).1).
  - constructor.
  - apply surjective_pairing.
  - apply (bool_decide_unpack _). vm_compute. exact I.
Defined.

(** X17. The attachments of a campaign are the paths the user entered
    that name an existing file, in the order entered, doubles included and
    white space around them removed; every path entered is answered by
    one line, [Added] or [File not found]; the loop ends at the first
    [done], in any case, and leaves what is typed after it.  (The file
    system is taken not to change during the dialogue.) *)
Theorem attachments_are_existing_files world entries closing rest p
    attachments :
  (∀ h h' path,
     path_exists (desk_env world) h path = path_exists (desk_env world) h' path) →
  Forall (λ entry, lower world (strip world entry) ≠ "done") entries →
  lower world (strip world closing) = "done" →
  read_attachments world (entries ++ closing :: rest) p attachments
  = (Returns (attachments
              ++ filter (λ path, path_exists (desk_env world) [] path)
                   (strip world <$> entries)),
     mkConsole rest
       (p ++ concat (attachment_dialogue world <$> entries)
          ++ [Asked "Enter attachment file path (or 'done' to finish): "
                closing])).
Proof.
  intros Hstable Hentries Hclosing. revert p attachments.
  induction Hentries as [|entry entries Hentry _ IH]; intros p attachments.
  - cbn [app read_attachments fmap list_fmap concat]. rewrite Hclosing.
    rewrite (bool_decide_eq_true_2 ("done" = "done")) by done.
    by rewrite filter_nil, app_nil_r.
  - cbn [app read_attachments]. rewrite bool_decide_eq_false_2 by done.
    rewrite !fmap_cons. cbn [concat]. unfold attachment_dialogue at 1.
    rewrite (Hstable _ [] (strip world entry)).
    destruct (path_exists (desk_env world) [] (strip world entry)) eqn:Hexists.
    + rewrite filter_cons_True by (by rewrite Hexists).
      rewrite IH. by rewrite <- !app_assoc.
    + rewrite filter_cons_False by (cbn beta; rewrite Hexists; exact id).
      rewrite IH. by rewrite <- !app_assoc.
Qed.

Lemma attachments_are_existing_files_witness :
  read_attachments (MoreExamples.office [])
    ([" recipients.csv"; "nothing.pdf"; "recipients.csv"] ++ " Done " :: ["y"])
    [] ["first.pdf"]
  = (Returns (["first.pdf"]
              ++ filter (λ path, path_exists
                                   (desk_env (MoreExamples.office [])) [] path)
                   (ascii_strip <$> [" recipients.csv"; "nothing.pdf"; "recipients.csv"])),
     mkConsole ["y"]
       ([] ++ concat (attachment_dialogue (MoreExamples.office [])
                        <$> [" recipients.csv"; "nothing.pdf"; "recipients.csv"])
          ++ [Asked "Enter attachment file path (or 'done' to finish): "
                " Done "])).
Proof.
  apply (attachments_are_existing_files (MoreExamples.office [])
           [" recipients.csv"; "nothing.pdf"; "recipients.csv"] " Done " ["y"]
           [] ["first.pdf"]).
  - reflexivity.
  - repeat constructor; by vm_compute.
  - reflexivity.
Defined.

(** X18. When the log file could be opened and the mail server refuses
    the login, the program stops there: it has tested the connection to
    [smtp.gmail.com:587] with the address typed, white space around it
    removed, and the password as typed, logs both failures, prints that
    the authentication failed and returns; it asks for no file and opens
    no session for a message. *)
Theorem main_stops_on_refused_login world address secret rest p e :
  let bot := mkBot "smtp.gmail.com" 587 (PyStr (strip world address)) (PyStr secret) in
  (∀ q, log_setup world q = None) →
  (∀ q, login world q bot = Some e) →
  ∃ t,
    main world (mkConsole (address :: secret :: rest) p)
    = (Returns tt,
       mkConsole rest
         (p ++ t
            ++ [AskedSecret "Enter your app password: " secret;
                ConnectionTest bot;
                AuthLog ERROR (ConnectionTestFailed e);
                AuthLog ERROR AuthenticationFailed;
                Did (Print (nl +:+ "✗ Authentication failed. Please check your credentials."))]))
    ∧ Forall (λ ce, (∃ text, ce = Did (Print text))
                    ∨ ce = Asked "Enter your email address: " address) t.
Proof.
  intros bot Hsetup Hlogin.
  assert (Hinit : ∀ c, init world c
                       = (Returns (mkBot "smtp.gmail.com" 587 PyNone PyNone), c))
    by (intros c; unfold init, setup_logging, mbind, Console_bind,
          console_bind; by rewrite Hsetup).
  assert (Hauth : ∀ q,
            ∃ t, authenticate world (mkBot "smtp.gmail.com" 587 PyNone PyNone)
                   (mkConsole (address :: secret :: rest) q)
                 = (Returns (false, bot),
                    mkConsole rest
                      (q ++ t
                         ++ [AskedSecret "Enter your app password: " secret;
                             ConnectionTest bot;
                             AuthLog ERROR (ConnectionTestFailed e);
                             AuthLog ERROR AuthenticationFailed]))
                 ∧ Forall (λ ce, (∃ text, ce = Did (Print text))
                                 ∨ ce = Asked "Enter your email address: " address) t).
  { intros q. unfold authenticate.
    rewrite !(console_bind_run _ _ _ _ _ (say_run _ _)). cbn [typed past].
    rewrite (console_bind_run _ _ _ _ _ (input_run _ _ _ _)). cbn zeta.
    rewrite !(console_bind_run _ _ _ _ _ (say_run _ _)). cbn [typed past].
    rewrite (console_bind_run _ _ _ _ _ (getpass_run _ _ _ _)).
    cbn [smtp_server smtp_port]. fold bot.
    unfold mbind at 1, Console_bind, console_bind at 1, test_connection.
    rewrite Hlogin. cbn [typed past].
    rewrite (console_bind_run (record _) _ _ tt _ eq_refl).
    cbn [typed past mret Console_ret console_ret].
    eexists [_; _; _; _; _; _; _; _].
    rewrite <- !app_assoc. split; [reflexivity|].
    repeat (apply Forall_cons; split; [first [by left; eexists | by right]|]).
    constructor. }
  unfold main, main_prepare.
  destruct (Hauth ((((p ++ [Did (Print (nl +:+ str_mul "=" 50))])
                      ++ [Did (Print "SYNTECXHUB - EMAIL SENDER BOT")])
                     ++ [Did (Print "CREATE | THINK | SOLVE")])
                    ++ [Did (Print (str_mul "=" 50))]))
    as (t & Hrun & Ht).
  erewrite console_bind_run; last first.
  { rewrite !(console_bind_run _ _ _ _ _ (say_run _ _)). cbn zeta.
    cbn [typed past].
    rewrite (console_bind_run _ _ _ _ _ (Hinit _)).
    rewrite (console_bind_run _ _ _ _ _ Hrun). cbn [negb].
    rewrite (console_bind_run _ _ _ _ _ (say_run _ _)). reflexivity. }
  cbn [typed past mret Console_ret console_ret].
  eexists (_ :: _ :: _ :: _ :: t). rewrite <- !app_assoc.
  split; [reflexivity|].
  repeat (apply Forall_cons; split; [by left; eexists|]). exact Ht.
Qed.

Lemma main_stops_on_refused_login_witness :
  let bot := mkBot "smtp.gmail.com" 587 (PyStr (ascii_strip " me@x.com "))
               (PyStr " secret") in
  ∃ t,
    main MoreExamples.locked (mkConsole [" me@x.com "; " secret"; "recipients.csv"] [])
    = (Returns tt,
       mkConsole ["recipients.csv"]
         ([] ++ t
            ++ [AskedSecret "Enter your app password: " " secret";
                ConnectionTest bot;
                AuthLog ERROR (ConnectionTestFailed SMTPAuthenticationError);
                AuthLog ERROR AuthenticationFailed;
                Did (Print (nl +:+ "✗ Authentication failed. Please check your credentials."))]))
    ∧ Forall (λ ce, (∃ text, ce = Did (Print text))
                    ∨ ce = Asked "Enter your email address: " " me@x.com ") t.
Proof.
  apply (main_stops_on_refused_login MoreExamples.locked " me@x.com " " secret"
           ["recipients.csv"] [] SMTPAuthenticationError).
  - reflexivity.
  - reflexivity.
Defined.
